(** * Todo backend: the service layer and the HTTP transport adapter

    A shallow embedding of [internal/service/todo_service.go],
    [internal/server/routes.go], [internal/repository/todo_repository.go]
    and [internal/domain] (the [Todo] model), with the properties of the
    request pipeline proved over it.

    Conventions.
    - Go's [uint] and [uint64] are naturals below [2^64] ([N], wrap-around
      written out where the code can reach it).
    - A Go [error] is a value of the inductive [error]; [nil] is [None].
    - The store behind the repository is external: the repository is a record
      of state transformers over an arbitrary store type, and the service is
      written against that record, as the Go code is written against the
      [TodoRepository] interface.
    - Every call through the repository or service interface and every line
      written by [fmt.Printf] / [log.Printf] is recorded in the trace of the
      computation, in program order. *)

From Stdlib Require Import ZArith NArith String Ascii List DecimalString Lia Bool.
From Stdlib Require Import DecimalPos DecimalN Sorted.
From stdpp Require Import base gmap strings list.
Import ListNotations.

Local Open Scope string_scope.
Local Open Scope N_scope.

(** ** Pieces of the Go standard library the code calls *)

Module Go.

Definition uint : Type := N.
Definition uint64 : Type := N.
Definition maxUint64 : N := 18446744073709551615.

(** [uint(id)] on a 64-bit target. *)
Definition uint_of_uint64 (n : uint64) : uint := n mod 2 ^ 64.

(** The double-quote character as a one-character string. *)
Definition dquote : string := String (ascii_of_nat 34) EmptyString.

(** [strings.HasPrefix] *)
Definition HasPrefix (s pre : string) : bool := String.prefix pre s.

(** [strings.TrimPrefix] *)
Definition TrimPrefix (s pre : string) : string :=
  if HasPrefix s pre
  then String.substring (String.length pre)
                        (String.length s - String.length pre)%nat s
  else s.

(** [strings.Contains] *)
Fixpoint Contains (s substr : string) : bool :=
  String.prefix substr s
  || match s with
     | EmptyString => false
     | String _ s' => Contains s' substr
     end.

(** [%d] of an unsigned and of a signed integer. *)
Definition fmt_d (n : N) : string := NilZero.string_of_uint (N.to_uint n).
Definition fmt_dZ (z : Z) : string := NilZero.string_of_int (Z.to_int z).

(** [strconv.NumError.Err] *)
Inductive NumErr : Type := ErrSyntax | ErrRange.

(** The value of a byte as a digit, as the [switch] in [strconv.ParseUint]
    computes it: decimal digits, then letters of either case from 10 on;
    [None] is the [default] branch. *)
Definition lower (c : N) : N := N.lor c 32.

Definition digit_of_byte (c : N) : option N :=
  if (48 <=? c) && (c <=? 57) then Some (c - 48)
  else if (97 <=? lower c) && (lower c <=? 122) then Some (lower c - 97 + 10)
  else None.

(** The loop of [strconv.ParseUint(s, 10, 64)]: [cutoff] is
    [maxUint64/10 + 1], [n] is a [uint64]. *)
Definition cutoff10 : N := maxUint64 / 10 + 1.

Fixpoint ParseUint_loop (s : string) (n : uint64) : uint64 * option NumErr :=
  match s with
  | EmptyString => (n, None)
  | String c s' =>
      match digit_of_byte (N_of_ascii c) with
      | None => (0, Some ErrSyntax)
      | Some d =>
          if 10 <=? d then (0, Some ErrSyntax)
          else if cutoff10 <=? n then (maxUint64, Some ErrRange)
          else
            let n10 := (n * 10) mod 2 ^ 64 in
            let n1 := (n10 + d) mod 2 ^ 64 in
            if (n1 <? n10) || (maxUint64 <? n1)
            then (maxUint64, Some ErrRange)
            else ParseUint_loop s' n1
      end
  end.

(** [strconv.ParseUint(s, 10, 64)] *)
Definition ParseUint (s : string) : uint64 * option NumErr :=
  match s with
  | EmptyString => (0, Some ErrSyntax)
  | _ => ParseUint_loop s 0
  end.

(** A string of decimal digits only. *)
Definition is_digit (c : ascii) : bool :=
  (48 <=? N_of_ascii c) && (N_of_ascii c <=? 57).

Fixpoint all_digits (s : string) : bool :=
  match s with
  | EmptyString => true
  | String c s' => is_digit c && all_digits s'
  end.

(** The number a string of decimal digits denotes, without any bound. *)
Fixpoint decimal_value (s : string) (acc : N) : N :=
  match s with
  | EmptyString => acc
  | String c s' => decimal_value s' (acc * 10 + (N_of_ascii c - 48))
  end.

End Go.

Import Go.

(** ** Errors *)

(** The error values that flow through the layers: GORM's sentinel, a plain
    message ([errors.New], [fmt.Errorf] without [%w]), and an error wrapping
    another one ([fmt.Errorf] with [%w]). *)
Inductive error : Type :=
| ErrRecordNotFound
| errorString (msg : string)
| wrapError (msg : string) (inner : error).

(** [err.Error()] *)
Definition Error (e : error) : string :=
  match e with
  | ErrRecordNotFound => "record not found"
  | errorString msg => msg
  | wrapError msg _ => msg
  end.

(** [errors.Is(err, gorm.ErrRecordNotFound)]: walks the chain of wrapped
    errors; a plain message never is the sentinel, whatever its text. *)
Fixpoint Is_ErrRecordNotFound (e : error) : bool :=
  match e with
  | ErrRecordNotFound => true
  | errorString _ => false
  | wrapError _ inner => Is_ErrRecordNotFound inner
  end.

Definition errors_New (msg : string) : error := errorString msg.

(** ** domain.Todo *)

(** [time.Time]: an instant; [0] is Go's zero time. *)
Definition Time : Type := Z.

(** [gorm.Model] is embedded: [ID], [CreatedAt], [UpdatedAt], [DeletedAt]. *)
Record Todo : Type := mkTodo {
  ID : uint;
  CreatedAt : Time;
  UpdatedAt : Time;
  DeletedAt : option Time;
  Title : string;
  Completed : bool;
  UserID : uint
}.

Definition set_Title (t : Todo) (title : string) : Todo :=
  mkTodo (ID t) (CreatedAt t) (UpdatedAt t) (DeletedAt t) title (Completed t) (UserID t).

Definition set_Completed (t : Todo) (c : bool) : Todo :=
  mkTodo (ID t) (CreatedAt t) (UpdatedAt t) (DeletedAt t) (Title t) c (UserID t).

(** ** DTOs of the service *)

Record CreateTodoRequest : Type := mkCreateTodoRequest {
  req_Title : string;
  req_UserID : uint
}.

(** A [nil] pointer is [None]: the field was omitted. *)
Record UpdateTodoRequest : Type := mkUpdateTodoRequest {
  upd_Title : option string;
  upd_Completed : option bool
}.

Record TodoResponse : Type := mkTodoResponse {
  resp_ID : uint;
  resp_Title : string;
  resp_Completed : bool;
  resp_UserID : uint;
  resp_CreatedAt : string;
  resp_UpdatedAt : string
}.

(** ** Traces *)

Inductive RepoCall : Type :=
| RepoCreate (t : Todo)
| RepoFindByID (id : uint)
| RepoGetAll
| RepoUpdate (t : Todo)
| RepoDelete (id : uint).

Inductive SvcCall : Type :=
| SvcCreateTodo (req : CreateTodoRequest)
| SvcGetTodoByID (id : uint)
| SvcGetAllTodos
| SvcUpdateTodo (id : uint) (req : UpdateTodoRequest)
| SvcDeleteTodo (id : uint).

Inductive Event : Type :=
| EvRepo (c : RepoCall)
| EvSvc (c : SvcCall)
| EvStdout (line : string)
| EvLog (line : string).

Definition is_repo_create (e : Event) : bool :=
  match e with EvRepo (RepoCreate _) => true | _ => false end.
Definition is_repo_update (e : Event) : bool :=
  match e with EvRepo (RepoUpdate _) => true | _ => false end.
Definition is_repo_delete (e : Event) : bool :=
  match e with EvRepo (RepoDelete _) => true | _ => false end.

(** The outcome of a call that returns a value or an error. *)
Inductive result (A : Type) : Type :=
| Ok (a : A)
| Err (e : error).
Arguments Ok {A} a.
Arguments Err {A} e.

(** ** The computation monad: store state and trace *)

Section Monad.
Context {Store : Type}.

Definition M (A : Type) : Type := Store -> A * Store * list Event.

Definition ret {A} (a : A) : M A := fun s => (a, s, []).

Definition bind {A B} (m : M A) (k : A -> M B) : M B :=
  fun s =>
    let '(a, s1, t1) := m s in
    let '(b, s2, t2) := k a s1 in
    (b, s2, (t1 ++ t2)%list).

Definition emit (e : Event) : M unit := fun s => (tt, s, [e]).

(** A call through the repository interface. *)
Definition repo_call {A} (c : RepoCall) (f : Store -> A * Store) : M A :=
  fun s => let '(a, s') := f s in (a, s', [EvRepo c]).

(** A call through the service interface. *)
Definition svc_call {A} (c : SvcCall) (m : M A) : M A :=
  bind (emit (EvSvc c)) (fun _ => m).

Definition value {A} (r : A * Store * list Event) : A := fst (fst r).
Definition final {A} (r : A * Store * list Event) : Store := snd (fst r).
Definition trace {A} (r : A * Store * list Event) : list Event := snd r.

End Monad.
Arguments M Store A : clear implicits.

Declare Scope go_scope.
Delimit Scope go_scope with go.
Notation "x <- c ;; k" := (bind c (fun x => k))
  (at level 100, c at next level, right associativity) : go_scope.
Notation "c ;;; k" := (bind c (fun _ => k))
  (at level 100, right associativity) : go_scope.
Local Open Scope go_scope.

(** ** repository.TodoRepository *)

(** The interface. [Create] and [Update] receive a pointer and may write to the
    record it points to (GORM fills in the identity and the timestamps), so
    they return the record as they leave it. [FindByID] returns a record of
    its own, not one shared with the store. *)
Record TodoRepository (Store : Type) : Type := mkRepo {
  Create : Todo -> Store -> (Todo * option error) * Store;
  FindByID : uint -> Store -> result Todo * Store;
  GetAll : Store -> result (list Todo) * Store;
  Update : Todo -> Store -> (Todo * option error) * Store;
  Delete : uint -> Store -> option error * Store
}.
Arguments Create {Store} _ _ _.
Arguments FindByID {Store} _ _ _.
Arguments GetAll {Store} _ _.
Arguments Update {Store} _ _ _.
Arguments Delete {Store} _ _ _.

(** ** service.todoService *)

Section Service.
(** [t.Format(time.RFC3339)] *)
Variable Format_RFC3339 : Time -> string.
Context {Store : Type}.
Variable repo : TodoRepository Store.

(** The literal [TodoResponse{...}] every method builds from a [Todo]. *)
Definition response_of (t : Todo) : TodoResponse :=
  {| resp_ID := ID t;
     resp_Title := Title t;
     resp_Completed := Completed t;
     resp_UserID := UserID t;
     resp_CreatedAt := Format_RFC3339 (CreatedAt t);
     resp_UpdatedAt := Format_RFC3339 (UpdatedAt t) |}.

Definition Printf (line : string) : M Store unit := emit (EvStdout line).

Definition newline : string := String (ascii_of_nat 10) EmptyString.

Definition CreateTodo (req : CreateTodoRequest) : M Store (result TodoResponse) :=
  if String.eqb (req_Title req) EmptyString then
    ret (Err (errors_New "title cannot be empty"))
  else
    let newTodo :=
      {| ID := 0; CreatedAt := 0%Z; UpdatedAt := 0%Z; DeletedAt := None;
         Title := req_Title req;
         Completed := false;
         UserID := req_UserID req |} in
    r <- repo_call (RepoCreate newTodo) (Create repo newTodo) ;;
    let '(newTodo, err) := r in
    match err with
    | Some e =>
        Printf ("Error creating todo in repository: " +:+ Error e +:+ newline) ;;;
        ret (Err (errors_New "failed to create todo item"))
    | None => ret (Ok (response_of newTodo))
    end.

Definition GetTodoByID (id : uint) : M Store (result TodoResponse) :=
  r <- repo_call (RepoFindByID id) (FindByID repo id) ;;
  match r with
  | Err err =>
      if Is_ErrRecordNotFound err then
        ret (Err (errors_New ("todo with ID " +:+ fmt_d id +:+ " not found")))
      else
        Printf ("Error fetching todo " +:+ fmt_d id +:+ " from repository: "
                +:+ Error err +:+ newline) ;;;
        ret (Err (errors_New "failed to retrieve todo item"))
  | Ok todo => ret (Ok (response_of todo))
  end.

(** The loop appends one response per entity, in order. *)
Definition GetAllTodos : M Store (result (list TodoResponse)) :=
  r <- repo_call RepoGetAll (GetAll repo) ;;
  match r with
  | Err err =>
      Printf ("Error fetching all todos from repository: " +:+ Error err +:+ newline) ;;;
      ret (Err (errors_New "failed to retrieve todo items"))
  | Ok todos =>
      let responses :=
        fold_left (fun responses todo => (responses ++ [response_of todo])%list) todos [] in
      ret (Ok responses)
  end.

(** Step 2 of [UpdateTodo]: the two guarded assignments, returning the
    entity and the [updated] flag. *)
Definition apply_title (req : UpdateTodoRequest) (st : Todo * bool) : Todo * bool :=
  let '(existingTodo, updated) := st in
  match upd_Title req with
  | Some title =>
      if negb (String.eqb title EmptyString) && negb (String.eqb title (Title existingTodo))
      then (set_Title existingTodo title, true)
      else (existingTodo, updated)
  | None => (existingTodo, updated)
  end.

Definition apply_completed (req : UpdateTodoRequest) (st : Todo * bool) : Todo * bool :=
  let '(existingTodo, updated) := st in
  match upd_Completed req with
  | Some c =>
      if negb (Bool.eqb c (Completed existingTodo))
      then (set_Completed existingTodo c, true)
      else (existingTodo, updated)
  | None => (existingTodo, updated)
  end.

Definition reconcile (existingTodo : Todo) (req : UpdateTodoRequest) : Todo * bool :=
  apply_completed req (apply_title req (existingTodo, false)).

Definition UpdateTodo (id : uint) (req : UpdateTodoRequest) : M Store (result TodoResponse) :=
  r <- repo_call (RepoFindByID id) (FindByID repo id) ;;
  match r with
  | Err err =>
      if Is_ErrRecordNotFound err then
        ret (Err (errors_New ("todo with ID " +:+ fmt_d id +:+ " not found for update")))
      else
        Printf ("Error fetching todo " +:+ fmt_d id +:+ " for update: "
                +:+ Error err +:+ newline) ;;;
        ret (Err (errors_New "failed to retrieve todo item for update"))
  | Ok existingTodo =>
      let '(existingTodo, updated) := reconcile existingTodo req in
      if negb updated then
        Printf ("No changes detected for todo " +:+ fmt_d id +:+ newline) ;;;
        ret (Ok (response_of existingTodo))
      else
        r <- repo_call (RepoUpdate existingTodo) (Update repo existingTodo) ;;
        let '(existingTodo, err) := r in
        match err with
        | Some e =>
            Printf ("Error updating todo " +:+ fmt_d id +:+ " in repository: "
                    +:+ Error e +:+ newline) ;;;
            ret (Err (errors_New "failed to update todo item"))
        | None => ret (Ok (response_of existingTodo))
        end
  end.

Definition DeleteTodo (id : uint) : M Store (option error) :=
  r <- repo_call (RepoFindByID id) (FindByID repo id) ;;
  match r with
  | Err err =>
      if Is_ErrRecordNotFound err then
        ret (Some (errors_New ("todo with ID " +:+ fmt_d id +:+ " not found for deletion")))
      else
        Printf ("Error checking existence of todo " +:+ fmt_d id +:+ " before delete: "
                +:+ Error err +:+ newline) ;;;
        ret (Some (errors_New "failed to check todo item before deletion"))
  | Ok _ =>
      err <- repo_call (RepoDelete id) (Delete repo id) ;;
      match err with
      | Some e =>
          Printf ("Error deleting todo " +:+ fmt_d id +:+ " from repository: "
                  +:+ Error e +:+ newline) ;;;
          ret (Some (errors_New "failed to delete todo item"))
      | None => ret None
      end
  end.

End Service.

(** The entity [CreateTodo] hands to the repository: the literal
    [&domain.Todo{...}], every other field at its zero value. *)
Definition newTodo_of (req : CreateTodoRequest) : Todo :=
  {| ID := 0; CreatedAt := 0%Z; UpdatedAt := 0%Z; DeletedAt := None;
     Title := req_Title req;
     Completed := false;
     UserID := req_UserID req |}.

(** The guard of each of the two assignments in [UpdateTodo]. *)
Definition title_changes (existing : Todo) (req : UpdateTodoRequest) : bool :=
  match upd_Title req with
  | Some t => negb (String.eqb t EmptyString) && negb (String.eqb t (Title existing))
  | None => false
  end.

Definition completed_changes (existing : Todo) (req : UpdateTodoRequest) : bool :=
  match upd_Completed req with
  | Some c => negb (Bool.eqb c (Completed existing))
  | None => false
  end.

(** Whether the lookup by identity reported that no record matches. *)
Definition lookup_not_found (r : result Todo) : bool :=
  match r with
  | Err e => Is_ErrRecordNotFound e
  | Ok _ => false
  end.

(** The fixed messages of the service. *)
Definition msg_title_empty : string := "title cannot be empty".
Definition msg_create_failed : string := "failed to create todo item".
Definition msg_not_found (id : uint) (suffix : string) : string :=
  "todo with ID " +:+ fmt_d id +:+ " not found" +:+ suffix.

(** ** service.TodoService *)

(** The interface the transport adapter is written against. *)
Record TodoService (Store : Type) : Type := mkService {
  svc_CreateTodo : CreateTodoRequest -> M Store (result TodoResponse);
  svc_GetTodoByID : uint -> M Store (result TodoResponse);
  svc_GetAllTodos : M Store (result (list TodoResponse));
  svc_UpdateTodo : uint -> UpdateTodoRequest -> M Store (result TodoResponse);
  svc_DeleteTodo : uint -> M Store (option error)
}.
Arguments svc_CreateTodo {Store} _ _.
Arguments svc_GetTodoByID {Store} _ _.
Arguments svc_GetAllTodos {Store} _.
Arguments svc_UpdateTodo {Store} _ _ _.
Arguments svc_DeleteTodo {Store} _ _.

Definition NewTodoService (Format_RFC3339 : Time -> string) {Store : Type}
    (repo : TodoRepository Store) : TodoService Store :=
  {| svc_CreateTodo := CreateTodo Format_RFC3339 repo;
     svc_GetTodoByID := GetTodoByID Format_RFC3339 repo;
     svc_GetAllTodos := GetAllTodos Format_RFC3339 repo;
     svc_UpdateTodo := UpdateTodo Format_RFC3339 repo;
     svc_DeleteTodo := DeleteTodo repo |}.

(** ** The transport adapter (server/routes.go) *)

(** What [decoder.Decode(&req)] of [encoding/json] can fail with, after
    [DisallowUnknownFields]: the decoder is outside the repository, so a handler
    takes the outcome of the decoding as its input. An unknown field is
    reported by a plain error whose text is [json: unknown field] followed by
    the quoted key. *)
Inductive DecodeError : Type :=
| SyntaxError (msg : string) (Offset : Z)
| ErrUnexpectedEOF
| UnmarshalTypeError (Value Type_ : string) (Offset : Z) (Struct Field : string)
| EOF
| otherError (msg : string).

Definition DecodeError_Error (e : DecodeError) : string :=
  match e with
  | SyntaxError msg _ => msg
  | ErrUnexpectedEOF => "unexpected EOF"
  | UnmarshalTypeError v ty _ st fld =>
      if String.eqb st EmptyString && String.eqb fld EmptyString
      then "json: cannot unmarshal " +:+ v +:+ " into Go value of type " +:+ ty
      else "json: cannot unmarshal " +:+ v +:+ " into Go struct field "
           +:+ st +:+ "." +:+ fld +:+ " of type " +:+ ty
  | EOF => "EOF"
  | otherError msg => msg
  end.

(** [errors.As(err, &syntaxError)], [errors.Is(err, io.ErrUnexpectedEOF)],
    [errors.As(err, &unmarshalTypeError)], [errors.Is(err, io.EOF)]. *)
Definition As_SyntaxError (e : DecodeError) : option Z :=
  match e with SyntaxError _ off => Some off | _ => None end.
Definition Is_ErrUnexpectedEOF (e : DecodeError) : bool :=
  match e with ErrUnexpectedEOF => true | _ => false end.
Definition As_UnmarshalTypeError (e : DecodeError) : option (string * Z) :=
  match e with UnmarshalTypeError _ _ off _ fld => Some (fld, off) | _ => None end.
Definition Is_EOF (e : DecodeError) : bool :=
  match e with EOF => true | _ => false end.

(** The error the decoder returns for a body with the unknown key [key],
    [quote] being [%q]. *)
Definition unknown_field_error (quote : string -> string) (key : string) : DecodeError :=
  otherError ("json: unknown field " +:+ quote key).

(** The payloads the handlers hand to [respondWithJSON]; none of them can
    make [json.Marshal] fail. [JError m] is [map[string]string{error: m}]. *)
Inductive Payload : Type :=
| JError (message : string)
| JTodo (t : TodoResponse)
| JTodos (l : list TodoResponse)
| NoBody.

Record Response : Type := mkResponse {
  StatusCode : N;
  Body : Payload
}.

Definition StatusOK : N := 200.
Definition StatusCreated : N := 201.
Definition StatusNoContent : N := 204.
Definition StatusBadRequest : N := 400.
Definition StatusNotFound : N := 404.
Definition StatusInternalServerError : N := 500.

Definition error_message (r : Response) : option string :=
  match Body r with JError m => Some m | _ => None end.

(** The answer to a path identity that is not a positive integer, and the
    answer of [updateTodoHandler] to a body that does not decode. *)
Definition invalid_id_response : Response :=
  {| StatusCode := StatusBadRequest; Body := JError "Invalid todo ID provided" |}.
Definition invalid_body_response : Response :=
  {| StatusCode := StatusBadRequest; Body := JError "Invalid request body" |}.

(** The status the three handlers with a path identity answer with, given
    what the service returned. *)
Definition status_of_error (err : error) : N :=
  if Contains (Error err) "not found" then StatusNotFound else StatusInternalServerError.

Section Server.
(** [%q] of a string ([strconv.Quote]). *)
Variable Quote : string -> string.
Context {Store : Type}.
(** The [todoService] field of [Server]. *)
Variable todoService : TodoService Store.

Definition respondWithJSON (code : N) (payload : Payload) : M Store Response :=
  ret {| StatusCode := code; Body := payload |}.

Definition respondWithError (code : N) (message : string) : M Store Response :=
  respondWithJSON code (JError message).

Definition log_Printf (line : string) : M Store unit := emit (EvLog line).

Definition createTodoHandler (decoded : CreateTodoRequest + DecodeError)
    : M Store Response :=
  match decoded with
  | inr err =>
      match As_SyntaxError err with
      | Some off =>
          respondWithError StatusBadRequest
            ("Request body contains badly-formed JSON (at position " +:+ fmt_dZ off +:+ ")")
      | None =>
      if Is_ErrUnexpectedEOF err then
        respondWithError StatusBadRequest "Request body contains badly-formed JSON"
      else
      match As_UnmarshalTypeError err with
      | Some (fld, off) =>
          respondWithError StatusBadRequest
            ("Request body contains an invalid value for the " +:+ Quote fld
             +:+ " field (at position " +:+ fmt_dZ off +:+ ")")
      | None =>
      if HasPrefix (DecodeError_Error err) "json: unknown field " then
        let fieldName := TrimPrefix (DecodeError_Error err) "json: unknown field " in
        respondWithError StatusBadRequest
          ("Request body contains unknown field " +:+ fieldName)
      else if Is_EOF err then
        respondWithError StatusBadRequest "Request body must not be empty"
      else
        log_Printf ("Error decoding create todo request: " +:+ DecodeError_Error err) ;;;
        respondWithError StatusInternalServerError "Error processing request"
      end
      end
  | inl req =>
      r <- svc_call (SvcCreateTodo req) (svc_CreateTodo todoService req) ;;
      match r with
      | Err err =>
          if String.eqb (Error err) "title cannot be empty" then
            respondWithError StatusBadRequest (Error err)
          else
            log_Printf ("Error calling CreateTodo service: " +:+ Error err) ;;;
            respondWithError StatusInternalServerError "Failed to create todo"
      | Ok todoResp => respondWithJSON StatusCreated (JTodo todoResp)
      end
  end.

Definition getAllTodosHandler : M Store Response :=
  r <- svc_call SvcGetAllTodos (svc_GetAllTodos todoService) ;;
  match r with
  | Err err =>
      log_Printf ("Error calling GetAllTodos service: " +:+ Error err) ;;;
      respondWithError StatusInternalServerError "Failed to retrieve todos"
  | Ok todos => respondWithJSON StatusOK (JTodos todos)
  end.

(** [err != nil || id == 0] after [strconv.ParseUint(idStr, 10, 64)]. *)
Definition invalid_id (p : uint64 * option NumErr) : bool :=
  match snd p with Some _ => true | None => false end || (fst p =? 0).

Definition getTodoByIDHandler (idStr : string) : M Store Response :=
  let p := ParseUint idStr in
  if invalid_id p then
    respondWithError StatusBadRequest "Invalid todo ID provided"
  else
    let id := uint_of_uint64 (fst p) in
    r <- svc_call (SvcGetTodoByID id) (svc_GetTodoByID todoService id) ;;
    match r with
    | Err err =>
        if Contains (Error err) "not found" then
          respondWithError StatusNotFound (Error err)
        else
          log_Printf ("Error calling GetTodoByID service: " +:+ Error err) ;;;
          respondWithError StatusInternalServerError "Failed to retrieve todo"
    | Ok todo => respondWithJSON StatusOK (JTodo todo)
    end.

Definition updateTodoHandler (idStr : string)
    (decoded : UpdateTodoRequest + DecodeError) : M Store Response :=
  let p := ParseUint idStr in
  if invalid_id p then
    respondWithError StatusBadRequest "Invalid todo ID provided"
  else
    let id := uint_of_uint64 (fst p) in
    match decoded with
    | inr err =>
        log_Printf ("Error decoding update todo request: " +:+ DecodeError_Error err) ;;;
        respondWithError StatusBadRequest "Invalid request body"
    | inl req =>
        r <- svc_call (SvcUpdateTodo id req) (svc_UpdateTodo todoService id req) ;;
        match r with
        | Err err =>
            if Contains (Error err) "not found" then
              respondWithError StatusNotFound (Error err)
            else
              log_Printf ("Error calling UpdateTodo service: " +:+ Error err) ;;;
              respondWithError StatusInternalServerError "Failed to update todo"
        | Ok updatedTodo => respondWithJSON StatusOK (JTodo updatedTodo)
        end
    end.

Definition deleteTodoHandler (idStr : string) : M Store Response :=
  let p := ParseUint idStr in
  if invalid_id p then
    respondWithError StatusBadRequest "Invalid todo ID provided"
  else
    let id := uint_of_uint64 (fst p) in
    err <- svc_call (SvcDeleteTodo id) (svc_DeleteTodo todoService id) ;;
    match err with
    | Some err =>
        if Contains (Error err) "not found" then
          respondWithError StatusNotFound (Error err)
        else
          log_Printf ("Error calling DeleteTodo service: " +:+ Error err) ;;;
          respondWithError StatusInternalServerError "Failed to delete todo"
    | None => ret {| StatusCode := StatusNoContent; Body := NoBody |}
    end.

End Server.

(** ** Running an operation several times *)

Section Repeat.
Context {Store A : Type}.

(** [n] calls of [m] in a row, with their results in call order. *)
Fixpoint repeatM (n : nat) (m : M Store A) : M Store (list A) :=
  match n with
  | O => ret []
  | S n' => a <- m ;; l <- repeatM n' m ;; ret (a :: l)
  end.
End Repeat.

(** ** Blank titles, in the words of the specification *)

(** The white space of [unicode.IsSpace] within ASCII: tab, line feed,
    vertical tab, form feed, carriage return, space. The service has no such
    test of its own; this predicate only states what the specification calls
    a whitespace-only title. *)
Definition is_space (c : ascii) : bool :=
  let n := N_of_ascii c in ((9 <=? n) && (n <=? 13)) || (n =? 32).

Fixpoint whitespace_only (s : string) : bool :=
  match s with
  | EmptyString => true
  | String c s' => is_space c && whitespace_only s'
  end.

(** ** An in-memory repository

    A store that behaves as the GORM-backed repository does on a table with
    soft deletion: identities are handed out in sequence, [Create] and [Update]
    stamp the record with the store's clock, [Delete] marks the row and does
    not report a missing one, [FindByID] and [GetAll] see live rows only,
    [GetAll] in ascending order of identity.
    When [fault] is set every operation fails with that error. It is used to
    run the service and the handlers on concrete inputs. *)

Record MemStore : Type := mkMemStore {
  rows : gmap N Todo;
  nextID : N;
  clock : Time;
  fault : option error
}.

Definition live (t : Todo) : bool :=
  match DeletedAt t with None => true | Some _ => false end.

Definition memCreate (t : Todo) (s : MemStore) : (Todo * option error) * MemStore :=
  match fault s with
  | Some e => ((t, Some e), s)
  | None =>
      let t' := mkTodo (if ID t =? 0 then nextID s else ID t) (clock s) (clock s)
                       (DeletedAt t) (Title t) (Completed t) (UserID t) in
      ((t', None),
       mkMemStore (<[ID t' := t']> (rows s)) (nextID s + 1) (clock s + 1)%Z None)
  end.

Definition memFindByID (id : uint) (s : MemStore) : result Todo * MemStore :=
  match fault s with
  | Some e => (Err e, s)
  | None =>
      match rows s !! id with
      | Some t => if live t then (Ok t, s) else (Err ErrRecordNotFound, s)
      | None => (Err ErrRecordNotFound, s)
      end
  end.

(** The rows of a listing come in ascending order of identity. *)
Fixpoint insert_by_id (t : Todo) (l : list Todo) : list Todo :=
  match l with
  | [] => [t]
  | x :: l' => if ID t <=? ID x then t :: l else x :: insert_by_id t l'
  end.

Definition sort_by_id (l : list Todo) : list Todo := foldr insert_by_id [] l.

Definition memGetAll (s : MemStore) : result (list Todo) * MemStore :=
  match fault s with
  | Some e => (Err e, s)
  | None =>
      (Ok (sort_by_id (filter (fun t => live t = true) (snd <$> map_to_list (rows s)))), s)
  end.

Definition memUpdate (t : Todo) (s : MemStore) : (Todo * option error) * MemStore :=
  match fault s with
  | Some e => ((t, Some e), s)
  | None =>
      let t' := mkTodo (ID t) (CreatedAt t) (clock s) (DeletedAt t)
                       (Title t) (Completed t) (UserID t) in
      ((t', None),
       mkMemStore (<[ID t' := t']> (rows s)) (nextID s) (clock s + 1)%Z None)
  end.

Definition mark_deleted (now : Time) (t : Todo) : Todo :=
  if live t
  then mkTodo (ID t) (CreatedAt t) (UpdatedAt t) (Some now)
              (Title t) (Completed t) (UserID t)
  else t.

Definition memDelete (id : uint) (s : MemStore) : option error * MemStore :=
  match fault s with
  | Some e => (Some e, s)
  | None =>
      (None,
       mkMemStore (alter (mark_deleted (clock s)) id (rows s))
                  (nextID s) (clock s + 1)%Z None)
  end.

Definition memRepo : TodoRepository MemStore :=
  mkRepo MemStore memCreate memFindByID memGetAll memUpdate memDelete.

Definition emptyStore : MemStore := mkMemStore ∅ 1 1%Z None.

Definition brokenStore (e : error) : MemStore := mkMemStore ∅ 1 1%Z (Some e).

(** [%q] on a key made of letters, digits and underscores: the key between
    double quotes, nothing to escape. *)
Definition quote_plain (key : string) : string := dquote +:+ key +:+ dquote.

(** A rendering of instants for the examples: the decimal count. *)
Definition show_instant (t : Time) : string := fmt_dZ t.

(** A store holding one todo, created through the service, and the store
    after that todo has been completed through the service. *)
Definition oneTodoStore : MemStore :=
  final (CreateTodo show_instant memRepo (mkCreateTodoRequest "buy milk" 7) emptyStore).

Definition todo1 : Todo := mkTodo 1 1%Z 1%Z None "buy milk" false 7.

Definition doneTodoStore : MemStore :=
  final (UpdateTodo show_instant memRepo 1 (mkUpdateTodoRequest None (Some true))
                    oneTodoStore).

Definition todo1_done : Todo := mkTodo 1 1%Z 2%Z None "buy milk" true 7.

(** Bodies of a [PUT /todos/1] that do not decode: the unknown key [foo], a
    syntax error at offset 5, a string where [completed] wants a boolean. *)
Definition err_unknown_foo : DecodeError := unknown_field_error quote_plain "foo".
Definition err_syntax_5 : DecodeError :=
  SyntaxError "invalid character '}' looking for beginning of object key string" 5.
Definition err_type_completed : DecodeError :=
  UnmarshalTypeError "string" "bool" 20 "UpdateTodoRequest" "completed".

(** ** Reading traces *)

(** The repository calls and the service calls of a trace, in order. *)
Definition repo_calls (t : list Event) : list RepoCall :=
  flat_map (fun e => match e with EvRepo c => [c] | _ => [] end) t.

Definition svc_calls (t : list Event) : list SvcCall :=
  flat_map (fun e => match e with EvSvc c => [c] | _ => [] end) t.

Definition is_log (e : Event) : bool :=
  match e with EvLog _ => true | _ => false end.

(** Every message an error of the service can carry, for the identity [id]
    the operation was called with. *)
Definition service_messages (id : uint) : list string :=
  [ "title cannot be empty";
    "failed to create todo item";
    "todo with ID " +:+ fmt_d id +:+ " not found";
    "failed to retrieve todo item";
    "failed to retrieve todo items";
    "todo with ID " +:+ fmt_d id +:+ " not found for update";
    "failed to retrieve todo item for update";
    "failed to update todo item";
    "todo with ID " +:+ fmt_d id +:+ " not found for deletion";
    "failed to check todo item before deletion";
    "failed to delete todo item" ].

(** ** Kinds of decoding failures *)

(** The branch of the error dispatch of [createTodoHandler] a decoding failure
    falls into, in the order the handler tests them. *)
Inductive DecodeKind : Type :=
| KSyntax | KUnexpectedEOF | KWrongType | KUnknownField | KEmptyBody | KOther.

Definition decode_kind (e : DecodeError) : DecodeKind :=
  match As_SyntaxError e with
  | Some _ => KSyntax
  | None =>
  if Is_ErrUnexpectedEOF e then KUnexpectedEOF
  else
  match As_UnmarshalTypeError e with
  | Some _ => KWrongType
  | None =>
  if HasPrefix (DecodeError_Error e) "json: unknown field " then KUnknownField
  else if Is_EOF e then KEmptyBody
  else KOther
  end
  end.

(** ** database.Health and the health handler *)

(** [sql.DBStats], the fields [Health] reads; [WaitDuration] in nanoseconds. *)
Record DBStats : Type := mkDBStats {
  OpenConnections : Z;
  InUse : Z;
  Idle : Z;
  WaitCount : Z;
  WaitDuration : Z;
  MaxIdleClosed : Z;
  MaxLifetimeClosed : Z
}.

(** What the database answers during one health check: the error of
    [s.db.DB()], the error of [PingContext], and the statistics. *)
Record DBState : Type := mkDBState {
  db_error : option error;
  ping_error : option error;
  db_stats : DBStats
}.

Definition msg_healthy : string := "It's healthy".
Definition msg_heavy_load : string := "The database is experiencing heavy load.".
Definition msg_wait_events : string :=
  "The database has a high number of wait events, indicating potential bottlenecks.".
Definition msg_idle_closed : string :=
  "Many idle connections are being closed, consider revising the connection pool settings (MaxIdleConns, ConnMaxIdleTime).".
Definition msg_lifetime_closed : string :=
  "Many connections are being closed due to max lifetime, consider increasing ConnMaxLifetime or revising the connection usage pattern.".

Section Health.
(** [time.Duration.String] *)
Variable Duration_String : Z -> string.

(** [Health]: the map it returns and the lines it logs. The division is Go's,
    which truncates. *)
Definition Health (db : DBState) : gmap string string * list Event :=
  let stats : gmap string string := ∅ in
  match db_error db with
  | Some err =>
      let stats := <["status" := "down"]> stats in
      let stats :=
        <["error" := "failed to get underlying DB for health check: " +:+ Error err]> stats in
      (stats, [EvLog ("Error getting DB for health check: " +:+ Error err)])
  | None =>
  match ping_error db with
  | Some err =>
      let stats := <["status" := "down"]> stats in
      let stats := <["error" := "db down: " +:+ Error err]> stats in
      (stats, [EvLog ("db down: " +:+ Error err)])
  | None =>
      let stats := <["status" := "up"]> stats in
      let stats := <["message" := msg_healthy]> stats in
      let dbStats := db_stats db in
      let stats := <["open_connections" := fmt_dZ (OpenConnections dbStats)]> stats in
      let stats := <["in_use" := fmt_dZ (InUse dbStats)]> stats in
      let stats := <["idle" := fmt_dZ (Idle dbStats)]> stats in
      let stats := <["wait_count" := fmt_dZ (WaitCount dbStats)]> stats in
      let stats := <["wait_duration" := Duration_String (WaitDuration dbStats)]> stats in
      let stats := <["max_idle_closed" := fmt_dZ (MaxIdleClosed dbStats)]> stats in
      let stats := <["max_lifetime_closed" := fmt_dZ (MaxLifetimeClosed dbStats)]> stats in
      let stats :=
        if (80 <? OpenConnections dbStats)%Z
        then <["message" := msg_heavy_load]> stats else stats in
      let stats :=
        if (1000 <? WaitCount dbStats)%Z
        then <["message" := msg_wait_events]> stats else stats in
      let stats :=
        if (Z.quot (OpenConnections dbStats) 2 <? MaxIdleClosed dbStats)%Z
           && (Idle dbStats <? OpenConnections dbStats)%Z
        then <["message" := msg_idle_closed]> stats else stats in
      let stats :=
        if (Z.quot (OpenConnections dbStats) 2 <? MaxLifetimeClosed dbStats)%Z
        then <["message" := msg_lifetime_closed]> stats else stats in
      (stats, [])
  end
  end.

(** [healthHandler]: the status code and the map handed to [respondWithJSON]. *)
Definition StatusServiceUnavailable : N := 503.

Definition healthHandler (db : DBState) : N * gmap string string :=
  let healthStats := fst (Health db) in
  match healthStats !! "status" with
  | Some status =>
      if String.eqb status "down" then (StatusServiceUnavailable, healthStats)
      else (StatusOK, healthStats)
  | None => (StatusOK, healthStats)
  end.

End Health.

(** The four tests [Health] makes on the statistics, in order. *)
Definition heavy_load (st : DBStats) : bool := (80 <? OpenConnections st)%Z.
Definition many_waits (st : DBStats) : bool := (1000 <? WaitCount st)%Z.
Definition idle_closed (st : DBStats) : bool :=
  (Z.quot (OpenConnections st) 2 <? MaxIdleClosed st)%Z && (Idle st <? OpenConnections st)%Z.
Definition lifetime_closed (st : DBStats) : bool :=
  (Z.quot (OpenConnections st) 2 <? MaxLifetimeClosed st)%Z.

(** A database that answers, with a pool at rest. *)
Definition quietStats : DBStats := mkDBStats 3 1 2 0 0 0 0.
Definition show_duration (d : Z) : string := fmt_dZ d +:+ "ns".

(** ** server.NewServer: the listen address *)

(** [int64(x)] and the arithmetic of [int] on a 64-bit target. *)
Definition int64_wrap (z : Z) : Z := ((z + 2 ^ 63) mod 2 ^ 64 - 2 ^ 63)%Z.

(** The loop of the fast path of [strconv.Atoi]: [ch -= '0'] on a byte, then
    [n = n*10 + int(ch)]. *)
Fixpoint Atoi_loop (s : string) (n : Z) : Z * option NumErr :=
  match s with
  | EmptyString => (n, None)
  | String c s' =>
      let ch := (N_of_ascii c + 256 - 48) mod 256 in
      if 9 <? ch then (0%Z, Some ErrSyntax)
      else Atoi_loop s' (int64_wrap (n * 10 + Z.of_N ch))
  end.

Definition is_minus (c : ascii) : bool := N_of_ascii c =? 45.
Definition is_plus (c : ascii) : bool := N_of_ascii c =? 43.

(** [strconv.ParseInt(s, 10, 0)] *)
Definition ParseInt (s0 : string) : Z * option NumErr :=
  match s0 with
  | EmptyString => (0%Z, Some ErrSyntax)
  | String c rest =>
      let neg := negb (is_plus c) && is_minus c in
      let s := if is_plus c then rest else if is_minus c then rest else s0 in
      let (un, err) := ParseUint s in
      match err with
      | Some ErrSyntax => (0%Z, Some ErrSyntax)
      | _ =>
          let cutoff := 2 ^ 63 in
          if negb neg && (cutoff <=? un) then (Z.of_N (cutoff - 1), Some ErrRange)
          else if neg && (cutoff <? un) then ((- Z.of_N cutoff)%Z, Some ErrRange)
          else
            let n := int64_wrap (Z.of_N un) in
            ((if neg then int64_wrap (- n) else n), None)
      end
  end.

(** [strconv.Atoi] with [intSize = 64] *)
Definition Atoi (s0 : string) : Z * option NumErr :=
  let sLen := String.length s0 in
  if ((0 <? sLen) && (sLen <? 19))%nat then
    match s0 with
    | EmptyString => (0%Z, Some ErrSyntax)
    | String c rest =>
        let signed := is_minus c || is_plus c in
        let s := if signed then rest else s0 in
        if signed && (String.length s <? 1)%nat then (0%Z, Some ErrSyntax)
        else
          let (n, err) := Atoi_loop s 0%Z in
          match err with
          | Some e => (0%Z, Some e)
          | None => ((if is_minus c then int64_wrap (- n) else n), None)
          end
    end
  else ParseInt s0.

(** The [Error] method of the [strconv.NumError] that [Atoi] returns on the
    input [num]. *)
Definition NumErr_Error (e : NumErr) : string :=
  match e with
  | ErrSyntax => "invalid syntax"
  | ErrRange => "value out of range"
  end.

Definition NumError_Error (Quote : string -> string) (num : string) (e : NumErr) : string :=
  "strconv.Atoi: parsing " +:+ Quote num +:+ ": " +:+ NumErr_Error e.

(** The port [NewServer] listens on, given the value of the environment
    variable [PORT] (empty when unset), with what it prints; and the [Addr]
    of the server it returns. *)
Definition NewServer_port (Quote : string -> string) (PORT : string) : Z * list Event :=
  let portStr := if String.eqb PORT EmptyString then "8080" else PORT in
  let (port, err) := Atoi portStr in
  match err with
  | Some e =>
      (8080%Z,
       [EvStdout ("Warning: Invalid PORT environment variable '" +:+ portStr
                  +:+ "'. Using default 8080. Error: " +:+ NumError_Error Quote portStr e)])
  | None => (port, [])
  end.

Definition NewServer_Addr (Quote : string -> string) (PORT : string) : string :=
  ":" +:+ fmt_dZ (fst (NewServer_port Quote PORT)).

(** The digits of a port setting, after its sign if it has one. *)
Definition unsigned_part (s : string) : string :=
  match s with
  | EmptyString => EmptyString
  | String c rest => if is_minus c || is_plus c then rest else s
  end.

(** * Properties *)

(** ** Strings *)

Lemma prefix_app_self (p x : string) : String.prefix p (p +:+ x) = true.
Proof.
  induction p as [|c p IH]; simpl.
  - now destruct x.
  - destruct (ascii_dec c c) as [_|Hne]; [exact IH | now destruct Hne].
Qed.

Lemma Contains_prefix (s sub : string) :
  String.prefix sub s = true -> Contains s sub = true.
Proof. intros H. destruct s; cbn [Contains]; rewrite H; reflexivity. Qed.

Lemma Contains_here (sub b : string) : Contains (sub +:+ b) sub = true.
Proof. apply Contains_prefix, prefix_app_self. Qed.

Lemma Contains_app_r (a b sub : string) :
  Contains b sub = true -> Contains (a +:+ b) sub = true.
Proof.
  intros H. induction a as [|c a IH]; simpl.
  - exact H.
  - rewrite IH. apply orb_true_r.
Qed.

Lemma substring_whole (s : string) : String.substring 0 (String.length s) s = s.
Proof. induction s as [|c s IH]; simpl; [reflexivity | now rewrite IH]. Qed.

Lemma substring_skip (p x : string) :
  String.substring (String.length p) (String.length x) (p +:+ x) = x.
Proof. induction p as [|c p IH]; simpl; [apply substring_whole | exact IH]. Qed.

Lemma length_app (p x : string) :
  String.length (p +:+ x) = (String.length p + String.length x)%nat.
Proof. induction p as [|c p IH]; simpl; [reflexivity | now rewrite IH]. Qed.

Lemma HasPrefix_app (p x : string) : HasPrefix (p +:+ x) p = true.
Proof. apply prefix_app_self. Qed.

Lemma TrimPrefix_app (p x : string) : TrimPrefix (p +:+ x) p = x.
Proof.
  unfold TrimPrefix. rewrite HasPrefix_app, length_app.
  replace (String.length p + String.length x - String.length p)%nat
    with (String.length x) by lia.
  apply substring_skip.
Qed.

(** The three not-found messages of the service contain the words the
    transport adapter looks for, whatever the identity. *)
Lemma not_found_message (id : uint) (suffix : string) :
  Contains ("todo with ID " +:+ fmt_d id +:+ " not found" +:+ suffix) "not found" = true.
Proof.
  apply Contains_app_r, Contains_app_r.
  change (" not found" +:+ suffix) with (" " +:+ ("not found" +:+ suffix)).
  apply Contains_app_r, Contains_here.
Qed.

(** ** strconv.ParseUint *)

Lemma decimal_value_ge (s : string) (acc : N) : acc <= decimal_value s acc.
Proof.
  revert acc. induction s as [|c s IH]; intros acc; simpl.
  - lia.
  - specialize (IH (acc * 10 + (N_of_ascii c - 48))). lia.
Qed.

Lemma digit_of_byte_digit (c : ascii) :
  is_digit c = true -> digit_of_byte (N_of_ascii c) = Some (N_of_ascii c - 48).
Proof. unfold is_digit, digit_of_byte. now intros ->. Qed.

Lemma digit_of_byte_other (c : ascii) (d : N) :
  is_digit c = false -> digit_of_byte (N_of_ascii c) = Some d -> 10 <= d.
Proof.
  unfold is_digit, digit_of_byte. intros ->.
  destruct ((97 <=? lower (N_of_ascii c)) && (lower (N_of_ascii c) <=? 122));
    intros [= <-]. lia.
Qed.

Lemma is_digit_bounds (c : ascii) :
  is_digit c = true -> 48 <= N_of_ascii c <= 57.
Proof.
  unfold is_digit. intros H. apply andb_true_iff in H as [H1 H2].
  apply N.leb_le in H1, H2. split; assumption.
Qed.

(** On digits the loop computes the decimal value, or reports a range error
    as soon as the value leaves [uint64]. *)
Lemma ParseUint_loop_digits (s : string) (n : N) :
  all_digits s = true -> n <= maxUint64 ->
  ParseUint_loop s n =
    if decimal_value s n <=? maxUint64
    then (decimal_value s n, None)
    else (maxUint64, Some ErrRange).
Proof.
  revert n. induction s as [|c s IH]; intros n Hd Hn; simpl in *.
  - apply N.leb_le in Hn. now rewrite Hn.
  - apply andb_true_iff in Hd as [Hc Hs].
    rewrite (digit_of_byte_digit c Hc).
    pose proof (is_digit_bounds c Hc) as Hb.
    set (d := N_of_ascii c - 48) in *.
    assert (Hd10 : d < 10) by (subst d; lia).
    destruct (N.leb_spec 10 d) as [?|_]; [lia|].
    pose proof (decimal_value_ge s (n * 10 + d)) as Hge.
    unfold cutoff10, maxUint64 in *.
    change (18446744073709551615 / 10 + 1) with 1844674407370955162.
    change (2 ^ 64) with 18446744073709551616.
    destruct (N.leb_spec 1844674407370955162 n) as [Hcut|Hcut].
    + destruct (N.leb_spec (decimal_value s (n * 10 + d)) 18446744073709551615);
        [lia | reflexivity].
    + rewrite (N.mod_small (n * 10)) by lia.
      destruct (N.le_gt_cases (n * 10 + d) 18446744073709551615) as [Hfit|Hover].
      * rewrite (N.mod_small (n * 10 + d)) by lia.
        destruct (N.ltb_spec (n * 10 + d) (n * 10)) as [?|_]; [lia|].
        destruct (N.ltb_spec 18446744073709551615 (n * 10 + d)) as [?|_]; [lia|].
        simpl. apply IH; [exact Hs | exact Hfit].
      * assert (Hw : (n * 10 + d) mod 18446744073709551616
                     = n * 10 + d - 18446744073709551616).
        { symmetry. apply (N.mod_unique _ _ 1); lia. }
        rewrite Hw.
        destruct (N.ltb_spec (n * 10 + d - 18446744073709551616) (n * 10)) as [_|?];
          [|lia].
        simpl.
        destruct (N.leb_spec (decimal_value s (n * 10 + d)) 18446744073709551615);
          [lia | reflexivity].
Qed.

(** A byte that is not a decimal digit makes the loop fail. *)
Lemma ParseUint_loop_non_digit (s : string) (n : N) :
  all_digits s = false -> exists v e, ParseUint_loop s n = (v, Some e).
Proof.
  revert n. induction s as [|c s IH]; intros n Hd; simpl in *.
  - discriminate.
  - destruct (is_digit c) eqn:Hc; simpl in Hd.
    + rewrite (digit_of_byte_digit c Hc).
      destruct (10 <=? N_of_ascii c - 48); [eauto|].
      destruct (cutoff10 <=? n); [eauto|].
      match goal with |- context [if ?b then _ else _] => destruct b end; [eauto|].
      apply IH, Hd.
    + destruct (digit_of_byte (N_of_ascii c)) as [d|] eqn:Hdig; [|eauto].
      pose proof (digit_of_byte_other c d Hc Hdig) as Hge.
      apply N.leb_le in Hge. rewrite Hge. eauto.
Qed.

(** What [ParseUint] accepts, and what it returns then. *)
Lemma ParseUint_digits (s : string) :
  s <> EmptyString -> all_digits s = true ->
  ParseUint s =
    if decimal_value s 0 <=? maxUint64
    then (decimal_value s 0, None)
    else (maxUint64, Some ErrRange).
Proof.
  intros Hne Hd. unfold ParseUint. destruct s as [|c s]; [congruence|].
  apply ParseUint_loop_digits; [exact Hd | unfold maxUint64; lia].
Qed.

Lemma ParseUint_non_digit (s : string) :
  all_digits s = false -> exists v e, ParseUint s = (v, Some e).
Proof.
  intros Hd. unfold ParseUint. destruct s as [|c s]; [discriminate|].
  apply ParseUint_loop_non_digit, Hd.
Qed.

(** ** The monad *)

Ltac run_M :=
  unfold svc_call, repo_call, Printf, log_Printf, respondWithError, respondWithJSON;
  unfold bind, emit, ret; simpl.

(** ** The service *)

Section ServiceProps.
Variable fmt : Time -> string.
Context {Store : Type}.
Variable repo : TodoRepository Store.

(** *** CreateTodo *)

Lemma CreateTodo_empty_title (req : CreateTodoRequest) (s : Store) :
  req_Title req = EmptyString ->
  CreateTodo fmt repo req s = (Err (errors_New msg_title_empty), s, []).
Proof. intros H. unfold CreateTodo. rewrite H. reflexivity. Qed.

Lemma CreateTodo_nonempty_title (req : CreateTodoRequest) (s : Store) :
  req_Title req <> EmptyString ->
  CreateTodo fmt repo req s =
    match Create repo (newTodo_of req) s with
    | ((_, Some e), s1) =>
        (Err (errors_New msg_create_failed), s1,
         [EvRepo (RepoCreate (newTodo_of req));
          EvStdout ("Error creating todo in repository: " +:+ Error e +:+ newline)])
    | ((t, None), s1) =>
        (Ok (response_of fmt t), s1, [EvRepo (RepoCreate (newTodo_of req))])
    end.
Proof.
  intros H. unfold CreateTodo.
  destruct (String.eqb_spec (req_Title req) EmptyString) as [E|_]; [contradiction|].
  fold (newTodo_of req). run_M.
  destruct (Create repo (newTodo_of req) s) as [[t [e|]] s1]; reflexivity.
Qed.

(** *** UpdateTodo *)

Lemma UpdateTodo_found (id : uint) (req : UpdateTodoRequest)
    (s s1 : Store) (existing : Todo) :
  FindByID repo id s = (Ok existing, s1) ->
  UpdateTodo fmt repo id req s =
    let e' := fst (reconcile existing req) in
    if snd (reconcile existing req) then
      match Update repo e' s1 with
      | ((_, Some e), s2) =>
          (Err (errors_New "failed to update todo item"), s2,
           [EvRepo (RepoFindByID id); EvRepo (RepoUpdate e');
            EvStdout ("Error updating todo " +:+ fmt_d id +:+ " in repository: "
                      +:+ Error e +:+ newline)])
      | ((t, None), s2) =>
          (Ok (response_of fmt t), s2,
           [EvRepo (RepoFindByID id); EvRepo (RepoUpdate e')])
      end
    else
      (Ok (response_of fmt e'), s1,
       [EvRepo (RepoFindByID id);
        EvStdout ("No changes detected for todo " +:+ fmt_d id +:+ newline)]).
Proof.
  intros H. unfold UpdateTodo. run_M. rewrite H.
  destruct (reconcile existing req) as [e' [|]]; simpl.
  - destruct (Update repo e' s1) as [[t [e|]] s2]; reflexivity.
  - reflexivity.
Qed.

Lemma UpdateTodo_lookup_failed (id : uint) (req : UpdateTodoRequest)
    (s s1 : Store) (err : error) :
  FindByID repo id s = (Err err, s1) ->
  UpdateTodo fmt repo id req s =
    if Is_ErrRecordNotFound err then
      (Err (errors_New (msg_not_found id " for update")), s1, [EvRepo (RepoFindByID id)])
    else
      (Err (errors_New "failed to retrieve todo item for update"), s1,
       [EvRepo (RepoFindByID id);
        EvStdout ("Error fetching todo " +:+ fmt_d id +:+ " for update: "
                  +:+ Error err +:+ newline)]).
Proof.
  intros H. unfold UpdateTodo. run_M. rewrite H.
  destruct (Is_ErrRecordNotFound err); reflexivity.
Qed.

Lemma reconcile_dirty (existing : Todo) (req : UpdateTodoRequest) :
  snd (reconcile existing req) = title_changes existing req || completed_changes existing req.
Proof.
  unfold reconcile, apply_title, apply_completed, title_changes, completed_changes.
  destruct (upd_Title req) as [t|], (upd_Completed req) as [c|]; simpl;
    repeat match goal with |- context [if ?b then _ else _] => destruct b; simpl end;
    reflexivity.
Qed.

Lemma reconcile_Title (existing : Todo) (req : UpdateTodoRequest) :
  Title (fst (reconcile existing req)) =
    match upd_Title req with
    | Some t => if title_changes existing req then t else Title existing
    | None => Title existing
    end.
Proof.
  unfold reconcile, apply_title, apply_completed, title_changes.
  destruct (upd_Title req) as [t|], (upd_Completed req) as [c|]; simpl;
    repeat match goal with |- context [if ?b then _ else _] => destruct b; simpl end;
    reflexivity.
Qed.

Lemma reconcile_Completed (existing : Todo) (req : UpdateTodoRequest) :
  Completed (fst (reconcile existing req)) =
    match upd_Completed req with
    | Some c => c
    | None => Completed existing
    end.
Proof.
  unfold reconcile, apply_title, apply_completed.
  destruct (upd_Title req) as [t|], (upd_Completed req) as [c|]; simpl;
    repeat match goal with |- context [if ?b then _ else _] => destruct b eqn:?; simpl end;
    try reflexivity;
    match goal with H : negb (Bool.eqb _ _) = false |- _ =>
      apply negb_false_iff, Bool.eqb_prop in H; simpl in H; congruence end.
Qed.

Lemma reconcile_clean (existing : Todo) (req : UpdateTodoRequest) :
  snd (reconcile existing req) = false -> fst (reconcile existing req) = existing.
Proof.
  unfold reconcile, apply_title, apply_completed.
  destruct (upd_Title req) as [t|], (upd_Completed req) as [c|]; simpl;
    repeat match goal with |- context [if ?b then _ else _] => destruct b; simpl end;
    congruence.
Qed.

(** A present title that is empty counts as an absent one, and a present
    flag equal to the current one counts as an absent one. *)
Lemma reconcile_empty_title (existing : Todo) (c : option bool) :
  reconcile existing (mkUpdateTodoRequest (Some EmptyString) c)
  = reconcile existing (mkUpdateTodoRequest None c).
Proof. reflexivity. Qed.

Lemma reconcile_same_completed (existing : Todo) (t : option string) :
  reconcile existing (mkUpdateTodoRequest t (Some (Completed existing)))
  = reconcile existing (mkUpdateTodoRequest t None).
Proof.
  unfold reconcile, apply_completed, apply_title. simpl.
  destruct t as [t|]; simpl;
    repeat match goal with |- context [if ?b then _ else _] => destruct b eqn:?; simpl end;
    try reflexivity;
    rewrite Bool.eqb_reflx in *; discriminate.
Qed.

End ServiceProps.

Section RepeatProps.
Context {Store A : Type}.

(** An operation that leaves the store as it found it gives the same answer
    and the same trace every time. *)
Lemma repeatM_fixed (m : M Store A) (s : Store) (a : A) (t : list Event) (n : nat) :
  m s = (a, s, t) ->
  repeatM n m s = (repeat a n, s, concat (repeat t n)).
Proof.
  intros H. induction n as [|n IH]; simpl.
  - reflexivity.
  - unfold bind at 1. rewrite H. unfold bind at 1. rewrite IH. unfold ret.
    now rewrite app_nil_r.
Qed.

Lemma existsb_concat_repeat (p : Event -> bool) (t : list Event) (n : nat) :
  existsb p t = false -> existsb p (concat (repeat t n)) = false.
Proof.
  intros H. induction n as [|n IH]; simpl; [reflexivity|].
  now rewrite existsb_app, H, IH.
Qed.
End RepeatProps.

Section UpdateProps.
Variable fmt : Time -> string.
Context {Store : Type}.
Variable repo : TodoRepository Store.

Lemma UpdateTodo_dirty (id : uint) (req : UpdateTodoRequest)
    (s s1 : Store) (existing : Todo) :
  FindByID repo id s = (Ok existing, s1) ->
  snd (reconcile existing req) = true ->
  exists rest,
    trace (UpdateTodo fmt repo id req s)
    = EvRepo (RepoFindByID id) :: EvRepo (RepoUpdate (fst (reconcile existing req))) :: rest.
Proof.
  intros H Hd. rewrite (UpdateTodo_found fmt repo id req s s1 existing H). simpl.
  rewrite Hd.
  destruct (Update repo _ s1) as [[t [e|]] s2]; simpl; eauto.
Qed.

Lemma UpdateTodo_clean (id : uint) (req : UpdateTodoRequest)
    (s s1 : Store) (existing : Todo) :
  FindByID repo id s = (Ok existing, s1) ->
  snd (reconcile existing req) = false ->
  UpdateTodo fmt repo id req s =
    (Ok (response_of fmt existing), s1,
     [EvRepo (RepoFindByID id);
      EvStdout ("No changes detected for todo " +:+ fmt_d id +:+ newline)]).
Proof.
  intros H Hd. rewrite (UpdateTodo_found fmt repo id req s s1 existing H). simpl.
  now rewrite Hd, (reconcile_clean existing req Hd).
Qed.

Lemma UpdateTodo_persists_iff_dirty (id : uint) (req : UpdateTodoRequest)
    (s s1 : Store) (existing : Todo) :
  FindByID repo id s = (Ok existing, s1) ->
  existsb is_repo_update (trace (UpdateTodo fmt repo id req s))
  = snd (reconcile existing req).
Proof.
  intros H. rewrite (UpdateTodo_found fmt repo id req s s1 existing H). simpl.
  destruct (snd (reconcile existing req)); [|reflexivity].
  destruct (Update repo _ s1) as [[t [e|]] s2]; reflexivity.
Qed.

Lemma UpdateTodo_same_reconcile (id : uint) (req req' : UpdateTodoRequest)
    (s s1 : Store) (existing : Todo) :
  FindByID repo id s = (Ok existing, s1) ->
  reconcile existing req = reconcile existing req' ->
  UpdateTodo fmt repo id req s = UpdateTodo fmt repo id req' s.
Proof.
  intros H E.
  rewrite (UpdateTodo_found fmt repo id req s s1 existing H),
          (UpdateTodo_found fmt repo id req' s s1 existing H), E.
  reflexivity.
Qed.

Lemma title_changes_true (existing : Todo) (req : UpdateTodoRequest) (t : string) :
  upd_Title req = Some t -> t <> EmptyString -> t <> Title existing ->
  title_changes existing req = true.
Proof.
  intros Ht H1 H2. unfold title_changes. rewrite Ht.
  apply String.eqb_neq in H1, H2. now rewrite H1, H2.
Qed.

Lemma completed_changes_true (existing : Todo) (req : UpdateTodoRequest) (c : bool) :
  upd_Completed req = Some c -> c <> Completed existing ->
  completed_changes existing req = true.
Proof.
  intros Hc Hne. unfold completed_changes. rewrite Hc.
  destruct c, (Completed existing); simpl; congruence.
Qed.

(** C3: on an existing entity, a present non-empty title that differs from
    the current one is written to the entity and the entity is saved; a
    present empty title is handled exactly as an absent one (no error, and a
    changed completed flag is still saved); an absent title leaves the title
    of the entity as it was. *)
Theorem UpdateTodo_title_reconciliation (id : uint) (req : UpdateTodoRequest)
    (s s1 : Store) (existing : Todo) :
  FindByID repo id s = (Ok existing, s1) ->
  let r := UpdateTodo fmt repo id req s in
  (forall t, upd_Title req = Some t -> t <> EmptyString -> t <> Title existing ->
     snd (reconcile existing req) = true /\
     exists e' rest,
       trace r = EvRepo (RepoFindByID id) :: EvRepo (RepoUpdate e') :: rest /\
       Title e' = t)
  /\ (upd_Title req = Some EmptyString ->
      r = UpdateTodo fmt repo id (mkUpdateTodoRequest None (upd_Completed req)) s /\
      Title (fst (reconcile existing req)) = Title existing /\
      (upd_Completed req = None -> value r = Ok (response_of fmt existing)) /\
      (forall c, upd_Completed req = Some c -> c <> Completed existing ->
         exists rest,
           trace r = EvRepo (RepoFindByID id)
                     :: EvRepo (RepoUpdate (set_Completed existing c)) :: rest))
  /\ (upd_Title req = None ->
      Title (fst (reconcile existing req)) = Title existing /\
      forall e', In (EvRepo (RepoUpdate e')) (trace r) -> Title e' = Title existing).
Proof.
  intros H r. subst r. split; [|split].
  - intros t Ht H1 H2.
    pose proof (title_changes_true existing req t Ht H1 H2) as Hch.
    assert (Hd : snd (reconcile existing req) = true)
      by (now rewrite reconcile_dirty, Hch).
    split; [exact Hd|].
    destruct (UpdateTodo_dirty id req s s1 existing H Hd) as [rest Hr].
    exists (fst (reconcile existing req)), rest. split; [exact Hr|].
    now rewrite reconcile_Title, Ht, Hch.
  - intros Ht. destruct req as [ttl c]. simpl in Ht. subst ttl. simpl.
    split; [|split; [|split]].
    + apply (UpdateTodo_same_reconcile id _ _ s s1 existing H), reconcile_empty_title.
    + now rewrite reconcile_Title.
    + intros ->. now rewrite (UpdateTodo_clean id _ s s1 existing H).
    + intros c' -> Hne.
      assert (Hd : snd (reconcile existing (mkUpdateTodoRequest (Some EmptyString) (Some c')))
                   = true).
      { rewrite reconcile_dirty.
        rewrite (completed_changes_true existing
                   (mkUpdateTodoRequest (Some EmptyString) (Some c')) c' eq_refl Hne).
        apply orb_true_r. }
      destruct (UpdateTodo_dirty id _ s s1 existing H Hd) as [rest Hr].
      exists rest. rewrite Hr. do 3 f_equal.
      unfold reconcile, apply_title, apply_completed. simpl.
      destruct c', (Completed existing) eqn:E; simpl; congruence.
  - intros Ht. split.
    + now rewrite reconcile_Title, Ht.
    + intros e' Hin.
      rewrite (UpdateTodo_found fmt repo id req s s1 existing H) in Hin. simpl in Hin.
      assert (HT : Title (fst (reconcile existing req)) = Title existing)
        by (now rewrite reconcile_Title, Ht).
      destruct (snd (reconcile existing req)).
      * destruct (Update repo _ s1) as [[t [e|]] s2]; simpl in Hin;
          repeat (destruct Hin as [Hin|Hin]; [try discriminate|]); try contradiction;
          injection Hin as <-; exact HT.
      * simpl in Hin.
        repeat (destruct Hin as [Hin|Hin]; [try discriminate|]); contradiction.
Qed.

(** C4: on an existing entity, a present completed flag that differs from the
    current one (a present false over a current true included) is written to
    the entity and the entity is saved; a present flag equal to the current
    one is handled exactly as an absent one, so the entity is saved exactly
    when the title is present, non-empty and different. *)
Theorem UpdateTodo_completed_reconciliation (id : uint) (req : UpdateTodoRequest)
    (s s1 : Store) (existing : Todo) (c : bool) :
  FindByID repo id s = (Ok existing, s1) ->
  upd_Completed req = Some c ->
  let r := UpdateTodo fmt repo id req s in
  (c <> Completed existing ->
     snd (reconcile existing req) = true /\
     exists e' rest,
       trace r = EvRepo (RepoFindByID id) :: EvRepo (RepoUpdate e') :: rest /\
       Completed e' = c)
  /\ (c = Completed existing ->
      r = UpdateTodo fmt repo id (mkUpdateTodoRequest (upd_Title req) None) s /\
      Completed (fst (reconcile existing req)) = Completed existing /\
      existsb is_repo_update (trace r) = title_changes existing req).
Proof.
  intros H Hc r. subst r. split.
  - intros Hne.
    assert (Hd : snd (reconcile existing req) = true).
    { rewrite reconcile_dirty, (completed_changes_true existing req c Hc Hne).
      apply orb_true_r. }
    split; [exact Hd|].
    destruct (UpdateTodo_dirty id req s s1 existing H Hd) as [rest Hr].
    exists (fst (reconcile existing req)), rest. split; [exact Hr|].
    now rewrite reconcile_Completed, Hc.
  - intros ->. destruct req as [ttl c']. simpl in Hc. subst c'. simpl.
    split; [|split].
    + apply (UpdateTodo_same_reconcile id _ _ s s1 existing H), reconcile_same_completed.
    + now rewrite reconcile_Completed.
    + rewrite (UpdateTodo_persists_iff_dirty id _ s s1 existing H), reconcile_dirty.
      unfold completed_changes. simpl. rewrite Bool.eqb_reflx. apply orb_false_r.
Qed.

(** C5: when no field ends up dirty (both fields absent, for one), the only
    repository call is the initial load, the update is never called, and the
    response is built from the entity as loaded; over a store that a load
    leaves unchanged, any number of such calls returns that same response,
    [UpdatedAt] included, and leaves the store as it was. *)
Theorem UpdateTodo_no_change_is_noop (id : uint) (req : UpdateTodoRequest)
    (s s1 : Store) (existing : Todo) :
  FindByID repo id s = (Ok existing, s1) ->
  snd (reconcile existing (mkUpdateTodoRequest None None)) = false
  /\ (snd (reconcile existing req) = false ->
      UpdateTodo fmt repo id req s =
        (Ok (response_of fmt existing), s1,
         [EvRepo (RepoFindByID id);
          EvStdout ("No changes detected for todo " +:+ fmt_d id +:+ newline)])
      /\ existsb is_repo_update (trace (UpdateTodo fmt repo id req s)) = false
      /\ (s1 = s ->
          forall n,
            let rn := repeatM n (UpdateTodo fmt repo id req) s in
            value rn = repeat (Ok (response_of fmt existing)) n
            /\ final rn = s
            /\ existsb is_repo_update (trace rn) = false)).
Proof.
  intros H. split; [reflexivity|]. intros Hd.
  pose proof (UpdateTodo_clean id req s s1 existing H Hd) as Hrun.
  split; [exact Hrun|]. split; [now rewrite Hrun|].
  intros -> n rn. subst rn.
  rewrite (repeatM_fixed _ s _ _ n Hrun). simpl.
  repeat split. now apply existsb_concat_repeat.
Qed.

End UpdateProps.

(** ** CreateTodo, GetTodoByID, GetAllTodos, DeleteTodo *)

Section CrudProps.
Variable fmt : Time -> string.
Context {Store : Type}.
Variable repo : TodoRepository Store.

(** C1 (amended): a request whose title is the empty string is refused with
    the validation error and the repository is not called at all; a request
    with any other title, a whitespace-only one included, is not refused:
    it goes to the repository's create. *)
Theorem CreateTodo_rejects_empty_title_only (req : CreateTodoRequest) (s : Store) :
  (req_Title req = EmptyString ->
     CreateTodo fmt repo req s = (Err (errors_New msg_title_empty), s, []))
  /\ (req_Title req <> EmptyString ->
      value (CreateTodo fmt repo req s) <> Err (errors_New msg_title_empty)
      /\ exists rest,
           trace (CreateTodo fmt repo req s)
           = EvRepo (RepoCreate (newTodo_of req)) :: rest).
Proof.
  split.
  - apply CreateTodo_empty_title.
  - intros H. rewrite (CreateTodo_nonempty_title fmt repo req s H).
    destruct (Create repo (newTodo_of req) s) as [[t [e|]] s1]; simpl;
      (split; [discriminate | eauto]).
Qed.

Lemma createTodoHandler_create_failed (Quote : string -> string)
    (req : CreateTodoRequest) (s s' : Store) (t : Todo) (e : error) :
  req_Title req <> EmptyString ->
  Create repo (newTodo_of req) s = ((t, Some e), s') ->
  value (createTodoHandler Quote (NewTodoService fmt repo) (inl req) s)
  = {| StatusCode := StatusInternalServerError; Body := JError "Failed to create todo" |}.
Proof.
  intros H H1.
  unfold createTodoHandler, svc_call, bind, emit, NewTodoService, svc_CreateTodo.
  rewrite (CreateTodo_nonempty_title fmt repo req s H), H1. reflexivity.
Qed.

(** C9: whatever error the repository's create fails with, the caller of
    [CreateTodo] receives the one fixed error, a plain message that neither
    wraps nor is built from the store error, and the handler answers 500 with
    its own fixed message; the store error only goes to the log. *)
Theorem CreateTodo_store_error_not_leaked (Quote : string -> string)
    (req : CreateTodoRequest)
    (s1 s2 s1' s2' : Store) (t1 t2 : Todo) (e1 e2 : error) :
  req_Title req <> EmptyString ->
  Create repo (newTodo_of req) s1 = ((t1, Some e1), s1') ->
  Create repo (newTodo_of req) s2 = ((t2, Some e2), s2') ->
  value (CreateTodo fmt repo req s1) = Err (errorString msg_create_failed)
  /\ value (CreateTodo fmt repo req s2) = value (CreateTodo fmt repo req s1)
  /\ value (createTodoHandler Quote (NewTodoService fmt repo) (inl req) s1)
     = {| StatusCode := StatusInternalServerError; Body := JError "Failed to create todo" |}
  /\ value (createTodoHandler Quote (NewTodoService fmt repo) (inl req) s2)
     = value (createTodoHandler Quote (NewTodoService fmt repo) (inl req) s1)
  /\ trace (CreateTodo fmt repo req s1)
     = [EvRepo (RepoCreate (newTodo_of req));
        EvStdout ("Error creating todo in repository: " +:+ Error e1 +:+ newline)].
Proof.
  intros H H1 H2.
  rewrite (createTodoHandler_create_failed Quote req s1 s1' t1 e1 H H1),
          (createTodoHandler_create_failed Quote req s2 s2' t2 e2 H H2).
  rewrite !(CreateTodo_nonempty_title fmt repo req _ H), H1, H2.
  repeat split.
Qed.

(** *** GetTodoByID *)

Lemma GetTodoByID_run (id : uint) (s : Store) :
  GetTodoByID fmt repo id s =
    match FindByID repo id s with
    | (Ok todo, s1) => (Ok (response_of fmt todo), s1, [EvRepo (RepoFindByID id)])
    | (Err err, s1) =>
        if Is_ErrRecordNotFound err then
          (Err (errors_New (msg_not_found id EmptyString)), s1, [EvRepo (RepoFindByID id)])
        else
          (Err (errors_New "failed to retrieve todo item"), s1,
           [EvRepo (RepoFindByID id);
            EvStdout ("Error fetching todo " +:+ fmt_d id +:+ " from repository: "
                      +:+ Error err +:+ newline)])
    end.
Proof.
  unfold GetTodoByID. run_M.
  destruct (FindByID repo id s) as [[todo|err] s1]; [reflexivity|].
  destruct (Is_ErrRecordNotFound err); reflexivity.
Qed.

(** *** GetAllTodos *)

Lemma append_each {A B} (f : A -> B) (l : list A) (acc : list B) :
  fold_left (fun responses x => (responses ++ [f x])%list) l acc = (acc ++ map f l)%list.
Proof.
  revert acc. induction l as [|x l IH]; intros acc; simpl.
  - now rewrite app_nil_r.
  - now rewrite IH, <- app_assoc.
Qed.

Lemma GetAllTodos_run (s : Store) :
  GetAllTodos fmt repo s =
    match GetAll repo s with
    | (Ok todos, s1) => (Ok (map (response_of fmt) todos), s1, [EvRepo RepoGetAll])
    | (Err err, s1) =>
        (Err (errors_New "failed to retrieve todo items"), s1,
         [EvRepo RepoGetAll;
          EvStdout ("Error fetching all todos from repository: " +:+ Error err +:+ newline)])
    end.
Proof.
  unfold GetAllTodos. run_M.
  destruct (GetAll repo s) as [[todos|err] s1]; [|reflexivity].
  now rewrite append_each.
Qed.

(** C8: when the repository returns a list without error, [GetAllTodos]
    succeeds with one response per entity, in order, and the handler answers
    200 with that sequence; for the empty list both give the empty sequence,
    not an error. *)
Theorem GetAllTodos_maps_each_entity (s s1 : Store) (todos : list Todo) :
  GetAll repo s = (Ok todos, s1) ->
  GetAllTodos fmt repo s = (Ok (map (response_of fmt) todos), s1, [EvRepo RepoGetAll])
  /\ length (map (response_of fmt) todos) = length todos
  /\ getAllTodosHandler (NewTodoService fmt repo) s
     = ({| StatusCode := StatusOK; Body := JTodos (map (response_of fmt) todos) |}, s1,
        [EvSvc SvcGetAllTodos; EvRepo RepoGetAll])
  /\ (todos = [] ->
      value (GetAllTodos fmt repo s) = Ok []
      /\ value (getAllTodosHandler (NewTodoService fmt repo) s)
         = {| StatusCode := StatusOK; Body := JTodos [] |}).
Proof.
  intros H.
  assert (Hrun : GetAllTodos fmt repo s
                 = (Ok (map (response_of fmt) todos), s1, [EvRepo RepoGetAll]))
    by (now rewrite GetAllTodos_run, H).
  assert (Hh : getAllTodosHandler (NewTodoService fmt repo) s
               = ({| StatusCode := StatusOK;
                     Body := JTodos (map (response_of fmt) todos) |}, s1,
                  [EvSvc SvcGetAllTodos; EvRepo RepoGetAll])).
  { unfold getAllTodosHandler, svc_call, bind, emit, NewTodoService, svc_GetAllTodos.
    now rewrite Hrun. }
  split; [exact Hrun|]. split; [apply length_map|]. split; [exact Hh|].
  intros ->. now rewrite Hrun, Hh.
Qed.

(** *** DeleteTodo *)

Lemma DeleteTodo_run (id : uint) (s : Store) :
  DeleteTodo repo id s =
    match FindByID repo id s with
    | (Ok _, s1) =>
        match Delete repo id s1 with
        | (Some e, s2) =>
            (Some (errors_New "failed to delete todo item"), s2,
             [EvRepo (RepoFindByID id); EvRepo (RepoDelete id);
              EvStdout ("Error deleting todo " +:+ fmt_d id +:+ " from repository: "
                        +:+ Error e +:+ newline)])
        | (None, s2) => (None, s2, [EvRepo (RepoFindByID id); EvRepo (RepoDelete id)])
        end
    | (Err err, s1) =>
        if Is_ErrRecordNotFound err then
          (Some (errors_New (msg_not_found id " for deletion")), s1,
           [EvRepo (RepoFindByID id)])
        else
          (Some (errors_New "failed to check todo item before deletion"), s1,
           [EvRepo (RepoFindByID id);
            EvStdout ("Error checking existence of todo " +:+ fmt_d id
                      +:+ " before delete: " +:+ Error err +:+ newline)])
    end.
Proof.
  unfold DeleteTodo. run_M.
  destruct (FindByID repo id s) as [[todo|err] s1].
  - destruct (Delete repo id s1) as [[e|] s2]; reflexivity.
  - destruct (Is_ErrRecordNotFound err); reflexivity.
Qed.

(** C6: [DeleteTodo] starts with the lookup; when the lookup reports that no
    record matches, the result is the not-found error and the repository's
    delete is not called; hence a delete that went through, followed by a
    second delete of the same identity on a store where the record is then
    gone, gives the not-found error the second time. *)
Theorem DeleteTodo_checks_existence_first (id : uint) (s : Store) :
  (exists rest, trace (DeleteTodo repo id s) = EvRepo (RepoFindByID id) :: rest)
  /\ (forall err s1,
        FindByID repo id s = (Err err, s1) -> Is_ErrRecordNotFound err = true ->
        DeleteTodo repo id s
        = (Some (errors_New (msg_not_found id " for deletion")), s1,
           [EvRepo (RepoFindByID id)])
        /\ existsb is_repo_delete (trace (DeleteTodo repo id s)) = false
        /\ Contains (msg_not_found id " for deletion") "not found" = true)
  /\ (forall existing s1 s2 err s3,
        FindByID repo id s = (Ok existing, s1) ->
        Delete repo id s1 = (None, s2) ->
        FindByID repo id s2 = (Err err, s3) -> Is_ErrRecordNotFound err = true ->
        value (repeatM 2 (DeleteTodo repo id) s)
        = [None; Some (errors_New (msg_not_found id " for deletion"))]).
Proof.
  split; [|split].
  - rewrite DeleteTodo_run.
    destruct (FindByID repo id s) as [[todo|err] s1].
    + destruct (Delete repo id s1) as [[e|] s2]; simpl; eauto.
    + destruct (Is_ErrRecordNotFound err); simpl; eauto.
  - intros err s1 H Hnf. rewrite DeleteTodo_run, H, Hnf. simpl.
    repeat split. apply not_found_message.
  - intros existing s1 s2 err s3 H1 H2 H3 Hnf.
    simpl. unfold bind, ret.
    rewrite (DeleteTodo_run id s), H1, H2.
    rewrite (DeleteTodo_run id s2), H3, Hnf. reflexivity.
Qed.

End CrudProps.

(** ** The transport adapter *)

Section HandlerProps.
Context {Store : Type}.
Variable svc : TodoService Store.

Lemma getTodoByIDHandler_invalid_id (idStr : string) (s : Store) :
  invalid_id (ParseUint idStr) = true ->
  getTodoByIDHandler svc idStr s = (invalid_id_response, s, []).
Proof. intros H. unfold getTodoByIDHandler. now rewrite H. Qed.

Lemma updateTodoHandler_invalid_id (idStr : string)
    (decoded : UpdateTodoRequest + DecodeError) (s : Store) :
  invalid_id (ParseUint idStr) = true ->
  updateTodoHandler svc idStr decoded s = (invalid_id_response, s, []).
Proof. intros H. unfold updateTodoHandler. now rewrite H. Qed.

Lemma deleteTodoHandler_invalid_id (idStr : string) (s : Store) :
  invalid_id (ParseUint idStr) = true ->
  deleteTodoHandler svc idStr s = (invalid_id_response, s, []).
Proof. intros H. unfold deleteTodoHandler. now rewrite H. Qed.

Lemma getTodoByIDHandler_status (idStr : string) (s : Store) :
  invalid_id (ParseUint idStr) = false ->
  StatusCode (value (getTodoByIDHandler svc idStr s)) =
    match value (svc_GetTodoByID svc (uint_of_uint64 (fst (ParseUint idStr))) s) with
    | Ok _ => StatusOK
    | Err err => status_of_error err
    end.
Proof.
  intros H. unfold getTodoByIDHandler, status_of_error. rewrite H. run_M.
  destruct (svc_GetTodoByID svc _ s) as [[[todo|err] s1] t]; simpl; [reflexivity|].
  destruct (Contains (Error err) "not found"); reflexivity.
Qed.

Lemma updateTodoHandler_status (idStr : string) (req : UpdateTodoRequest) (s : Store) :
  invalid_id (ParseUint idStr) = false ->
  StatusCode (value (updateTodoHandler svc idStr (inl req) s)) =
    match value (svc_UpdateTodo svc (uint_of_uint64 (fst (ParseUint idStr))) req s) with
    | Ok _ => StatusOK
    | Err err => status_of_error err
    end.
Proof.
  intros H. unfold updateTodoHandler, status_of_error. rewrite H. run_M.
  destruct (svc_UpdateTodo svc _ req s) as [[[todo|err] s1] t]; simpl; [reflexivity|].
  destruct (Contains (Error err) "not found"); reflexivity.
Qed.

Lemma deleteTodoHandler_status (idStr : string) (s : Store) :
  invalid_id (ParseUint idStr) = false ->
  StatusCode (value (deleteTodoHandler svc idStr s)) =
    match value (svc_DeleteTodo svc (uint_of_uint64 (fst (ParseUint idStr))) s) with
    | None => StatusNoContent
    | Some err => status_of_error err
    end.
Proof.
  intros H. unfold deleteTodoHandler, status_of_error. rewrite H. run_M.
  destruct (svc_DeleteTodo svc _ s) as [[[err|] s1] t]; simpl; [|reflexivity].
  destruct (Contains (Error err) "not found"); reflexivity.
Qed.

(** *** Path identities *)

Lemma invalid_id_empty : invalid_id (ParseUint EmptyString) = true.
Proof. reflexivity. Qed.

Lemma invalid_id_non_digit (idStr : string) :
  all_digits idStr = false -> invalid_id (ParseUint idStr) = true.
Proof.
  intros H. destruct (ParseUint_non_digit idStr H) as (v & e & ->). reflexivity.
Qed.

Lemma invalid_id_digits (idStr : string) :
  idStr <> EmptyString -> all_digits idStr = true ->
  invalid_id (ParseUint idStr)
  = negb ((1 <=? decimal_value idStr 0) && (decimal_value idStr 0 <=? maxUint64)).
Proof.
  intros Hne Hd. rewrite (ParseUint_digits idStr Hne Hd). unfold invalid_id.
  destruct (N.leb_spec (decimal_value idStr 0) maxUint64) as [Hle|Hgt]; simpl.
  - rewrite andb_true_r.
    destruct (N.eqb_spec (decimal_value idStr 0) 0) as [->|Hnz]; [reflexivity|].
    destruct (N.leb_spec 1 (decimal_value idStr 0)); [reflexivity | lia].
  - now rewrite andb_false_r.
Qed.

Lemma valid_id_positive (idStr : string) :
  invalid_id (ParseUint idStr) = false ->
  idStr <> EmptyString
  /\ all_digits idStr = true
  /\ 1 <= decimal_value idStr 0 <= maxUint64
  /\ uint_of_uint64 (fst (ParseUint idStr)) = decimal_value idStr 0.
Proof.
  intros H.
  assert (Hne : idStr <> EmptyString).
  { intros ->. rewrite invalid_id_empty in H. discriminate. }
  assert (Hd : all_digits idStr = true).
  { destruct (all_digits idStr) eqn:E; [reflexivity|].
    rewrite (invalid_id_non_digit idStr E) in H. discriminate. }
  rewrite (invalid_id_digits idStr Hne Hd) in H.
  apply negb_false_iff, andb_true_iff in H as [H1 H2].
  apply N.leb_le in H1, H2.
  repeat split; try assumption.
  rewrite (ParseUint_digits idStr Hne Hd).
  apply N.leb_le in H2. rewrite H2. simpl. unfold uint_of_uint64.
  apply N.mod_small. apply N.leb_le in H2. unfold maxUint64 in H2.
  change (2 ^ 64) with 18446744073709551616. lia.
Qed.

(** C7: the three handlers with a path identity answer 400 without calling
    the service (no event, store untouched) whenever the identity does not
    parse or parses to zero; the empty string, any string with a byte that
    is not a decimal digit and any string denoting zero are such identities;
    an identity that gets through is a non-empty string of decimal digits
    denoting a positive integer within [uint64], which is the identity the
    service is called with. *)
Theorem path_id_must_be_positive_integer (idStr : string)
    (decoded : UpdateTodoRequest + DecodeError) (s : Store) :
  (invalid_id (ParseUint idStr) = true ->
     getTodoByIDHandler svc idStr s = (invalid_id_response, s, [])
     /\ updateTodoHandler svc idStr decoded s = (invalid_id_response, s, [])
     /\ deleteTodoHandler svc idStr s = (invalid_id_response, s, []))
  /\ (idStr = EmptyString \/ all_digits idStr = false \/ decimal_value idStr 0 = 0 ->
      invalid_id (ParseUint idStr) = true)
  /\ (invalid_id (ParseUint idStr) = false ->
      idStr <> EmptyString
      /\ all_digits idStr = true
      /\ 1 <= decimal_value idStr 0 <= maxUint64
      /\ uint_of_uint64 (fst (ParseUint idStr)) = decimal_value idStr 0).
Proof.
  split; [|split].
  - intros H. split; [|split].
    + now apply getTodoByIDHandler_invalid_id.
    + now apply updateTodoHandler_invalid_id.
    + now apply deleteTodoHandler_invalid_id.
  - intros [->|[H|H]].
    + reflexivity.
    + now apply invalid_id_non_digit.
    + destruct idStr as [|c rest] eqn:E; [reflexivity|]. rewrite <- E in *.
      destruct (all_digits idStr) eqn:Hd; [|now apply invalid_id_non_digit].
      rewrite invalid_id_digits by (subst; congruence || assumption).
      now rewrite H.
  - apply valid_id_positive.
Qed.

(** *** Bodies that do not decode *)

(** [updateTodoHandler] answers every body that fails to decode with the same
    400 and the same fixed message, whatever the failure; the failure itself
    only goes to the log. *)
Lemma updateTodoHandler_decode_error_message (idStr : string)
    (err : DecodeError) (s : Store) :
  invalid_id (ParseUint idStr) = false ->
  updateTodoHandler svc idStr (inr err) s
  = (invalid_body_response, s,
     [EvLog ("Error decoding update todo request: " +:+ DecodeError_Error err)]).
Proof. intros H. unfold updateTodoHandler. rewrite H. reflexivity. Qed.

End HandlerProps.

Section CreateHandlerProps.
Variable Quote : string -> string.
Context {Store : Type}.
Variable svc : TodoService Store.

(** [createTodoHandler] tells the failures of the decoder apart: the answer
    names the position of a syntax error, the field and position of a value
    of the wrong type, and the key of an unknown field. *)
Lemma createTodoHandler_decode_errors (s : Store) :
  (forall msg off,
     createTodoHandler Quote svc (inr (SyntaxError msg off)) s
     = ({| StatusCode := StatusBadRequest;
           Body := JError ("Request body contains badly-formed JSON (at position "
                           +:+ fmt_dZ off +:+ ")") |}, s, []))
  /\ (forall v ty off st fld,
        createTodoHandler Quote svc (inr (UnmarshalTypeError v ty off st fld)) s
        = ({| StatusCode := StatusBadRequest;
              Body := JError ("Request body contains an invalid value for the "
                              +:+ Quote fld +:+ " field (at position "
                              +:+ fmt_dZ off +:+ ")") |}, s, []))
  /\ (forall key,
        createTodoHandler Quote svc (inr (unknown_field_error Quote key)) s
        = ({| StatusCode := StatusBadRequest;
              Body := JError ("Request body contains unknown field " +:+ Quote key) |},
           s, [])).
Proof.
  split; [|split]; intros; try reflexivity.
  unfold createTodoHandler, unknown_field_error. simpl As_SyntaxError.
  simpl Is_ErrUnexpectedEOF. simpl As_UnmarshalTypeError. cbv iota.
  unfold DecodeError_Error.
  now rewrite HasPrefix_app, TrimPrefix_app.
Qed.

End CreateHandlerProps.

Section ClassificationProps.
Variable fmt : Time -> string.
Context {Store : Type}.
Variable repo : TodoRepository Store.

Lemma GetTodoByID_error_class (id : uint) (s : Store) (err : error) :
  value (GetTodoByID fmt repo id s) = Err err ->
  Contains (Error err) "not found" = lookup_not_found (fst (FindByID repo id s)).
Proof.
  rewrite GetTodoByID_run.
  destruct (FindByID repo id s) as [[todo|e] s1]; simpl; [discriminate|].
  destruct (Is_ErrRecordNotFound e); simpl; intros [= <-].
  - apply not_found_message.
  - reflexivity.
Qed.

Lemma UpdateTodo_error_class (id : uint) (req : UpdateTodoRequest)
    (s : Store) (err : error) :
  value (UpdateTodo fmt repo id req s) = Err err ->
  Contains (Error err) "not found" = lookup_not_found (fst (FindByID repo id s)).
Proof.
  destruct (FindByID repo id s) as [[todo|e] s1] eqn:H; simpl.
  - rewrite (UpdateTodo_found fmt repo id req s s1 todo H). simpl.
    destruct (snd (reconcile todo req)); [|discriminate].
    destruct (Update repo _ s1) as [[t [e|]] s2]; simpl; [|discriminate].
    intros [= <-]. reflexivity.
  - rewrite (UpdateTodo_lookup_failed fmt repo id req s s1 e H).
    destruct (Is_ErrRecordNotFound e); simpl; intros [= <-].
    + apply not_found_message.
    + reflexivity.
Qed.

Lemma DeleteTodo_error_class (id : uint) (s : Store) (err : error) :
  value (DeleteTodo repo id s) = Some err ->
  Contains (Error err) "not found" = lookup_not_found (fst (FindByID repo id s)).
Proof.
  rewrite DeleteTodo_run.
  destruct (FindByID repo id s) as [[todo|e] s1]; simpl.
  - destruct (Delete repo id s1) as [[e|] s2]; simpl; [|discriminate].
    intros [= <-]. reflexivity.
  - destruct (Is_ErrRecordNotFound e); simpl; intros [= <-].
    + apply not_found_message.
    + reflexivity.
Qed.

Lemma lookup_not_found_fails (id : uint) (req : UpdateTodoRequest) (s : Store) :
  lookup_not_found (fst (FindByID repo id s)) = true ->
  value (GetTodoByID fmt repo id s) = Err (errors_New (msg_not_found id EmptyString))
  /\ value (UpdateTodo fmt repo id req s) = Err (errors_New (msg_not_found id " for update"))
  /\ value (DeleteTodo repo id s) = Some (errors_New (msg_not_found id " for deletion")).
Proof.
  intros Hnf.
  destruct (FindByID repo id s) as [[todo|e] s1] eqn:H; simpl in Hnf; [discriminate|].
  rewrite GetTodoByID_run, DeleteTodo_run,
          (UpdateTodo_lookup_failed fmt repo id req s s1 e H), H, Hnf.
  repeat split.
Qed.

(** C10: the repository reports a missing record through the lookup by
    identity, the one call whose error the service tests against
    [gorm.ErrRecordNotFound]. An error of [GetTodoByID], [UpdateTodo] or
    [DeleteTodo] has a message containing the words not found exactly when
    that lookup reported no record; every other error of these operations
    has a message without these words, and so have the errors of
    [CreateTodo] and [GetAllTodos]. Hence the three handlers answer 404
    exactly when the lookup reported no record, and 500 to every other
    error of the service. *)
Theorem not_found_is_decided_by_the_lookup (id : uint) (req : UpdateTodoRequest)
    (creq : CreateTodoRequest) (idStr : string) (s : Store) :
  let nf := lookup_not_found (fst (FindByID repo id s)) in
  let svc := NewTodoService fmt repo in
  (forall err, value (GetTodoByID fmt repo id s) = Err err ->
               Contains (Error err) "not found" = nf)
  /\ (forall err, value (UpdateTodo fmt repo id req s) = Err err ->
                  Contains (Error err) "not found" = nf)
  /\ (forall err, value (DeleteTodo repo id s) = Some err ->
                  Contains (Error err) "not found" = nf)
  /\ (forall err, value (CreateTodo fmt repo creq s) = Err err ->
                  Contains (Error err) "not found" = false)
  /\ (forall err, value (GetAllTodos fmt repo s) = Err err ->
                  Contains (Error err) "not found" = false)
  /\ (invalid_id (ParseUint idStr) = false ->
      uint_of_uint64 (fst (ParseUint idStr)) = id ->
      StatusCode (value (getTodoByIDHandler svc idStr s))
      = match value (GetTodoByID fmt repo id s) with
        | Ok _ => StatusOK
        | Err _ => if nf then StatusNotFound else StatusInternalServerError
        end
      /\ StatusCode (value (updateTodoHandler svc idStr (inl req) s))
         = match value (UpdateTodo fmt repo id req s) with
           | Ok _ => StatusOK
           | Err _ => if nf then StatusNotFound else StatusInternalServerError
           end
      /\ StatusCode (value (deleteTodoHandler svc idStr s))
         = match value (DeleteTodo repo id s) with
           | None => StatusNoContent
           | Some _ => if nf then StatusNotFound else StatusInternalServerError
           end
      /\ (nf = true ->
          StatusCode (value (getTodoByIDHandler svc idStr s)) = StatusNotFound
          /\ StatusCode (value (updateTodoHandler svc idStr (inl req) s)) = StatusNotFound
          /\ StatusCode (value (deleteTodoHandler svc idStr s)) = StatusNotFound)).
Proof.
  intros nf svc. subst nf svc.
  split; [intros err; apply GetTodoByID_error_class|].
  split; [intros err; apply UpdateTodo_error_class|].
  split; [intros err; apply DeleteTodo_error_class|].
  split.
  { intros err.
    destruct (String.eqb_spec (req_Title creq) EmptyString) as [E|E].
    - rewrite (CreateTodo_empty_title fmt repo creq s E). simpl. now intros [= <-].
    - rewrite (CreateTodo_nonempty_title fmt repo creq s E).
      destruct (Create repo (newTodo_of creq) s) as [[t [e|]] s1]; simpl;
        [now intros [= <-] | discriminate]. }
  split.
  { intros err. rewrite GetAllTodos_run.
    destruct (GetAll repo s) as [[todos|e] s1]; simpl;
      [discriminate | now intros [= <-]]. }
  intros Hid Hidv.
  assert (Hget : StatusCode (value (getTodoByIDHandler (NewTodoService fmt repo) idStr s))
            = match value (GetTodoByID fmt repo id s) with
              | Ok _ => StatusOK
              | Err _ => if lookup_not_found (fst (FindByID repo id s))
                         then StatusNotFound else StatusInternalServerError
              end).
  { rewrite (getTodoByIDHandler_status _ idStr s Hid), Hidv. simpl svc_GetTodoByID.
    destruct (value (GetTodoByID fmt repo id s)) as [r|err] eqn:E; [reflexivity|].
    unfold status_of_error. now rewrite (GetTodoByID_error_class id s err E). }
  assert (Hupd : StatusCode (value (updateTodoHandler (NewTodoService fmt repo) idStr
                                                  (inl req) s))
            = match value (UpdateTodo fmt repo id req s) with
              | Ok _ => StatusOK
              | Err _ => if lookup_not_found (fst (FindByID repo id s))
                         then StatusNotFound else StatusInternalServerError
              end).
  { rewrite (updateTodoHandler_status _ idStr req s Hid), Hidv. simpl svc_UpdateTodo.
    destruct (value (UpdateTodo fmt repo id req s)) as [r|err] eqn:E; [reflexivity|].
    unfold status_of_error. now rewrite (UpdateTodo_error_class id req s err E). }
  assert (Hdel : StatusCode (value (deleteTodoHandler (NewTodoService fmt repo) idStr s))
            = match value (DeleteTodo repo id s) with
              | None => StatusNoContent
              | Some _ => if lookup_not_found (fst (FindByID repo id s))
                          then StatusNotFound else StatusInternalServerError
              end).
  { rewrite (deleteTodoHandler_status _ idStr s Hid), Hidv. simpl svc_DeleteTodo.
    destruct (value (DeleteTodo repo id s)) as [err|] eqn:E; [|reflexivity].
    unfold status_of_error. now rewrite (DeleteTodo_error_class id s err E). }
  split; [exact Hget|]. split; [exact Hupd|]. split; [exact Hdel|].
  intros Hnf.
  destruct (lookup_not_found_fails id req s Hnf) as (Eg & Eu & Ed).
  rewrite Hget, Hupd, Hdel, Eg, Eu, Ed, Hnf. repeat split.
Qed.

End ClassificationProps.

(** ** The in-memory repository keeps the contract the service relies on *)

Lemma live_mark_deleted (now : Time) (t : Todo) : live (mark_deleted now t) = false.
Proof. unfold mark_deleted. destruct (live t) eqn:E; [reflexivity | exact E]. Qed.

(** After a delete the lookup reports that no record matches. *)
Lemma memRepo_delete_then_find (id : uint) (s : MemStore) :
  fault s = None ->
  fst (FindByID memRepo id (snd (Delete memRepo id s))) = Err ErrRecordNotFound.
Proof.
  intros Hf. simpl. unfold memDelete, memFindByID. rewrite Hf. simpl.
  rewrite lookup_alter_eq.
  destruct (rows s !! id) as [t|]; simpl; [|reflexivity].
  now rewrite live_mark_deleted.
Qed.

(** A lookup leaves the store as it found it. *)
Lemma memRepo_find_reads_only (id : uint) (s : MemStore) :
  snd (FindByID memRepo id s) = s.
Proof.
  simpl. unfold memFindByID.
  destruct (fault s); [reflexivity|].
  destruct (rows s !! id) as [t|]; [|reflexivity].
  destruct (live t); reflexivity.
Qed.

(** The save and the delete of the in-memory repository fail only on a store
    where the lookup fails too: an error of [UpdateTodo] or [DeleteTodo] over
    it always stems from the lookup. *)
Lemma memRepo_errors_stem_from_the_lookup (fmt : Time -> string) (id : uint)
    (req : UpdateTodoRequest) (s : MemStore) :
  (forall e, value (UpdateTodo fmt memRepo id req s) = Err e ->
             exists err, fst (FindByID memRepo id s) = Err err)
  /\ (forall e, value (DeleteTodo memRepo id s) = Some e ->
                exists err, fst (FindByID memRepo id s) = Err err).
Proof.
  split; intros e H.
  - destruct (FindByID memRepo id s) as [[todo|err] s1] eqn:Hf; [|eauto].
    exfalso.
    rewrite (UpdateTodo_found fmt memRepo id req s s1 todo Hf) in H. simpl in H.
    pose proof (memRepo_find_reads_only id s) as Hs. rewrite Hf in Hs. simpl in Hs.
    subst s1.
    assert (Hfault : fault s = None).
    { simpl in Hf. unfold memFindByID in Hf. destruct (fault s); [discriminate | reflexivity]. }
    destruct (snd (reconcile todo req)); [|discriminate].
    unfold memUpdate in H. rewrite Hfault in H. discriminate.
  - rewrite DeleteTodo_run in H.
    destruct (FindByID memRepo id s) as [[todo|err] s1] eqn:Hf; [|eauto].
    exfalso.
    pose proof (memRepo_find_reads_only id s) as Hs. rewrite Hf in Hs. simpl in Hs.
    subst s1.
    assert (Hfault : fault s = None).
    { simpl in Hf. unfold memFindByID in Hf. destruct (fault s); [discriminate | reflexivity]. }
    simpl in H. unfold memDelete in H. rewrite Hfault in H. discriminate.
Qed.

(** A listing comes in ascending order of identity. *)
Lemma insert_by_id_sorted (t : Todo) (l : list Todo) :
  StronglySorted (fun a b => ID a <= ID b) l ->
  StronglySorted (fun a b => ID a <= ID b) (insert_by_id t l).
Proof.
  induction 1 as [|x l Hs IH Hall]; simpl.
  - repeat constructor.
  - destruct (N.leb_spec (ID t) (ID x)) as [Hle|Hgt].
    + constructor; [now constructor|].
      constructor; [exact Hle|].
      eapply Forall_impl; [exact Hall|]. simpl. intros y Hy. lia.
    + constructor; [exact IH|].
      assert (Hin : forall y, In y (insert_by_id t l) -> y = t \/ In y l).
      { clear. induction l as [|z l IHl]; simpl.
        - intros y [->|[]]. now left.
        - destruct (ID t <=? ID z); simpl.
          + intros y [->|[->|H]]; auto.
          + intros y [->|H]; [auto|]. destruct (IHl y H); auto. }
      apply Forall_forall. intros y Hy. apply list_elem_of_In in Hy.
      destruct (Hin y Hy) as [->|Hy']; [lia|].
      rewrite Forall_forall in Hall. apply Hall, list_elem_of_In, Hy'.
Qed.

Lemma memGetAll_ascending (s : MemStore) (todos : list Todo) :
  fst (GetAll memRepo s) = Ok todos ->
  StronglySorted (fun a b => ID a <= ID b) todos.
Proof.
  simpl. unfold memGetAll. destruct (fault s); [discriminate|]. simpl.
  intros [= <-]. unfold sort_by_id.
  induction (filter _ _) as [|t l IH]; simpl; [constructor|].
  now apply insert_by_id_sorted.
Qed.

(** A delete of an identity that is not in the store is not an error. *)
Lemma memRepo_delete_missing (id : uint) (s : MemStore) :
  fault s = None -> fst (Delete memRepo id s) = None.
Proof. intros Hf. simpl. unfold memDelete. now rewrite Hf. Qed.

(** ** The properties on concrete requests *)

(** C1, as stated, fails on the title made of one space: it is whitespace-only,
    yet [CreateTodo] does not return the validation error and calls the
    repository's create, which stores the todo. *)
Lemma CreateTodo_whitespace_title_accepted :
  let r := CreateTodo show_instant memRepo (mkCreateTodoRequest " " 7) emptyStore in
  whitespace_only " " = true
  /\ value r = Ok (mkTodoResponse 1 " " false 7 "1" "1")
  /\ value r <> Err (errors_New msg_title_empty)
  /\ existsb is_repo_create (trace r) = true.
Proof. repeat split. discriminate. Qed.

Lemma CreateTodo_rejects_empty_title_only_witness :
  CreateTodo show_instant memRepo (mkCreateTodoRequest EmptyString 7) emptyStore
  = (Err (errors_New msg_title_empty), emptyStore, [])
  /\ (value (CreateTodo show_instant memRepo (mkCreateTodoRequest " " 7) emptyStore)
      <> Err (errors_New msg_title_empty)
      /\ exists rest,
           trace (CreateTodo show_instant memRepo (mkCreateTodoRequest " " 7) emptyStore)
           = EvRepo (RepoCreate (newTodo_of (mkCreateTodoRequest " " 7))) :: rest).
Proof.
  split.
  - apply (proj1 (CreateTodo_rejects_empty_title_only show_instant memRepo
                    (mkCreateTodoRequest EmptyString 7) emptyStore)).
    reflexivity.
  - apply (proj2 (CreateTodo_rejects_empty_title_only show_instant memRepo
                    (mkCreateTodoRequest " " 7) emptyStore)).
    simpl. discriminate.
Defined.

(** C2: [PUT /todos/1] with a body holding the unknown key [foo], with a
    syntax error and with a value of the wrong type gets the same answer all
    three times, 400 with a message that does not name [foo]; on the same
    three failures [createTodoHandler] gives three different messages, the
    one for the unknown key naming it. *)
Theorem updateTodoHandler_decode_errors_share_one_message
    {Store : Type} (svc : TodoService Store) (s : Store) :
  value (updateTodoHandler svc "1" (inr err_unknown_foo) s) = invalid_body_response
  /\ value (updateTodoHandler svc "1" (inr err_syntax_5) s) = invalid_body_response
  /\ value (updateTodoHandler svc "1" (inr err_type_completed) s) = invalid_body_response
  /\ error_message invalid_body_response = Some "Invalid request body"
  /\ Contains "Invalid request body" "foo" = false
  /\ error_message (value (createTodoHandler quote_plain svc (inr err_unknown_foo) s))
     = Some ("Request body contains unknown field " +:+ quote_plain "foo")
  /\ error_message (value (createTodoHandler quote_plain svc (inr err_syntax_5) s))
     = Some "Request body contains badly-formed JSON (at position 5)"
  /\ error_message (value (createTodoHandler quote_plain svc (inr err_type_completed) s))
     = Some ("Request body contains an invalid value for the " +:+ quote_plain "completed"
             +:+ " field (at position 20)").
Proof.
  rewrite !(updateTodoHandler_decode_error_message svc "1" _ s eq_refl).
  repeat split.
Qed.

Lemma UpdateTodo_title_reconciliation_witness :
  FindByID memRepo 1 oneTodoStore = (Ok todo1, oneTodoStore)
  /\ (exists e' rest,
        trace (UpdateTodo show_instant memRepo 1
                 (mkUpdateTodoRequest (Some "buy bread") None) oneTodoStore)
        = EvRepo (RepoFindByID 1) :: EvRepo (RepoUpdate e') :: rest
        /\ Title e' = "buy bread")
  /\ UpdateTodo show_instant memRepo 1
       (mkUpdateTodoRequest (Some EmptyString) (Some true)) oneTodoStore
     = UpdateTodo show_instant memRepo 1 (mkUpdateTodoRequest None (Some true)) oneTodoStore
  /\ Title (fst (reconcile todo1 (mkUpdateTodoRequest None (Some true)))) = Title todo1.
Proof.
  split; [reflexivity|]. split; [|split].
  - apply (proj1 (UpdateTodo_title_reconciliation show_instant memRepo 1
                    (mkUpdateTodoRequest (Some "buy bread") None)
                    oneTodoStore oneTodoStore todo1 eq_refl) "buy bread");
      [reflexivity | discriminate | discriminate].
  - apply (proj1 (proj2 (UpdateTodo_title_reconciliation show_instant memRepo 1
                    (mkUpdateTodoRequest (Some EmptyString) (Some true))
                    oneTodoStore oneTodoStore todo1 eq_refl))).
    reflexivity.
  - exact (proj1 (proj2 (proj2 (UpdateTodo_title_reconciliation show_instant memRepo 1
                    (mkUpdateTodoRequest None (Some true))
                    oneTodoStore oneTodoStore todo1 eq_refl)) eq_refl)).
Defined.

Lemma UpdateTodo_completed_reconciliation_witness :
  FindByID memRepo 1 doneTodoStore = (Ok todo1_done, doneTodoStore)
  /\ (exists e' rest,
        trace (UpdateTodo show_instant memRepo 1
                 (mkUpdateTodoRequest None (Some false)) doneTodoStore)
        = EvRepo (RepoFindByID 1) :: EvRepo (RepoUpdate e') :: rest
        /\ Completed e' = false)
  /\ existsb is_repo_update
       (trace (UpdateTodo show_instant memRepo 1
                 (mkUpdateTodoRequest None (Some true)) doneTodoStore))
     = false.
Proof.
  split; [reflexivity|]. split.
  - apply (proj1 (UpdateTodo_completed_reconciliation show_instant memRepo 1
                    (mkUpdateTodoRequest None (Some false))
                    doneTodoStore doneTodoStore todo1_done false eq_refl eq_refl)).
    simpl. discriminate.
  - apply (proj2 (UpdateTodo_completed_reconciliation show_instant memRepo 1
                    (mkUpdateTodoRequest None (Some true))
                    doneTodoStore doneTodoStore todo1_done true eq_refl eq_refl)).
    reflexivity.
Defined.

Lemma UpdateTodo_no_change_is_noop_witness :
  FindByID memRepo 1 oneTodoStore = (Ok todo1, oneTodoStore)
  /\ value (repeatM 3 (UpdateTodo show_instant memRepo 1 (mkUpdateTodoRequest None None))
                    oneTodoStore)
     = repeat (Ok (response_of show_instant todo1)) 3
  /\ final (repeatM 3 (UpdateTodo show_instant memRepo 1 (mkUpdateTodoRequest None None))
                    oneTodoStore)
     = oneTodoStore.
Proof.
  split; [reflexivity|].
  destruct (proj2 (UpdateTodo_no_change_is_noop show_instant memRepo 1
                     (mkUpdateTodoRequest None None)
                     oneTodoStore oneTodoStore todo1 eq_refl) eq_refl)
    as (_ & _ & Hrep).
  destruct (Hrep eq_refl 3%nat) as (Hv & Hf & _).
  split; [exact Hv | exact Hf].
Defined.

Lemma DeleteTodo_checks_existence_first_witness :
  FindByID memRepo 5 emptyStore = (Err ErrRecordNotFound, emptyStore)
  /\ DeleteTodo memRepo 5 emptyStore
     = (Some (errors_New (msg_not_found 5 " for deletion")), emptyStore,
        [EvRepo (RepoFindByID 5)])
  /\ value (repeatM 2 (DeleteTodo memRepo 1) oneTodoStore)
     = [None; Some (errors_New (msg_not_found 1 " for deletion"))].
Proof.
  split; [reflexivity|]. split.
  - apply (proj1 (proj2 (DeleteTodo_checks_existence_first memRepo 5 emptyStore))
             ErrRecordNotFound emptyStore); reflexivity.
  - apply (proj2 (proj2 (DeleteTodo_checks_existence_first memRepo 1 oneTodoStore))
             todo1 oneTodoStore (snd (Delete memRepo 1 oneTodoStore))
             ErrRecordNotFound (snd (Delete memRepo 1 oneTodoStore)));
      reflexivity.
Defined.

Lemma path_id_must_be_positive_integer_witness :
  invalid_id (ParseUint "0") = true
  /\ invalid_id (ParseUint "abc") = true
  /\ getTodoByIDHandler (NewTodoService show_instant memRepo) "0" oneTodoStore
     = (invalid_id_response, oneTodoStore, [])
  /\ decimal_value "42" 0 = 42.
Proof.
  pose (svc := NewTodoService show_instant memRepo).
  pose (body := inl (mkUpdateTodoRequest None None) : UpdateTodoRequest + DecodeError).
  split; [|split; [|split]].
  - apply (proj1 (proj2 (path_id_must_be_positive_integer svc "0" body oneTodoStore))).
    right. right. reflexivity.
  - apply (proj1 (proj2 (path_id_must_be_positive_integer svc "abc" body oneTodoStore))).
    right. left. reflexivity.
  - apply (proj1 (path_id_must_be_positive_integer svc "0" body oneTodoStore)).
    reflexivity.
  - destruct (proj2 (proj2 (path_id_must_be_positive_integer svc "42" body oneTodoStore))
                eq_refl) as (_ & _ & _ & H).
    rewrite <- H. reflexivity.
Defined.

Lemma GetAllTodos_maps_each_entity_witness :
  GetAll memRepo emptyStore = (Ok [], emptyStore)
  /\ value (GetAllTodos show_instant memRepo emptyStore) = Ok []
  /\ value (getAllTodosHandler (NewTodoService show_instant memRepo) emptyStore)
     = {| StatusCode := StatusOK; Body := JTodos [] |}.
Proof.
  split; [reflexivity|].
  apply (proj2 (proj2 (proj2 (GetAllTodos_maps_each_entity show_instant memRepo
                                emptyStore emptyStore [] eq_refl)))).
  reflexivity.
Defined.

Lemma CreateTodo_store_error_not_leaked_witness :
  let req := mkCreateTodoRequest "buy milk" 7 in
  let s1 := brokenStore (errorString "connection refused") in
  let s2 := brokenStore (wrapError "insert: disk full" (errorString "disk full")) in
  value (CreateTodo show_instant memRepo req s1) = Err (errorString msg_create_failed)
  /\ value (CreateTodo show_instant memRepo req s2)
     = value (CreateTodo show_instant memRepo req s1)
  /\ value (createTodoHandler quote_plain (NewTodoService show_instant memRepo) (inl req) s2)
     = value (createTodoHandler quote_plain (NewTodoService show_instant memRepo) (inl req) s1).
Proof.
  intros req s1 s2.
  destruct (CreateTodo_store_error_not_leaked show_instant memRepo quote_plain req
              s1 s2 s1 s2 (newTodo_of req) (newTodo_of req)
              (errorString "connection refused")
              (wrapError "insert: disk full" (errorString "disk full")))
    as (H1 & H2 & _ & H4 & _); [simpl; discriminate | reflexivity | reflexivity |].
  split; [exact H1 | split; [exact H2 | exact H4]].
Defined.

Lemma not_found_is_decided_by_the_lookup_witness :
  let svc := NewTodoService show_instant memRepo in
  Contains (Error (errors_New (msg_not_found 5 EmptyString))) "not found" = true
  /\ StatusCode (value (getTodoByIDHandler svc "5" oneTodoStore)) = StatusNotFound
  /\ StatusCode (value (deleteTodoHandler svc "1" (brokenStore (errorString "not found"))))
     = StatusInternalServerError.
Proof.
  intros svc. subst svc.
  pose (req := mkUpdateTodoRequest None None).
  pose (creq := mkCreateTodoRequest "buy milk" 7).
  split; [|split].
  - apply (proj1 (not_found_is_decided_by_the_lookup show_instant memRepo 5 req creq
                    "5" oneTodoStore)).
    reflexivity.
  - destruct (proj2 (proj2 (proj2 (proj2 (proj2
               (not_found_is_decided_by_the_lookup show_instant memRepo 5 req creq
                  "5" oneTodoStore))))) eq_refl eq_refl) as (_ & _ & _ & H).
    apply (proj1 (H eq_refl)).
  - destruct (proj2 (proj2 (proj2 (proj2 (proj2
               (not_found_is_decided_by_the_lookup show_instant memRepo 1 req creq
                  "1" (brokenStore (errorString "not found"))))))) eq_refl eq_refl)
      as (_ & _ & H & _).
    rewrite H. reflexivity.
Defined.

(** * Further properties of the service *)

Section ServiceFurther.
Variable fmt : Time -> string.
Context {Store : Type}.
Variable repo : TodoRepository Store.

(** X1: the two read operations make exactly one repository call each, the
    lookup or the listing, whatever the store answers: they never create,
    update or delete. *)
Theorem read_operations_only_read (id : uint) (s : Store) :
  repo_calls (trace (GetTodoByID fmt repo id s)) = [RepoFindByID id]
  /\ repo_calls (trace (GetAllTodos fmt repo s)) = [RepoGetAll].
Proof.
  rewrite GetTodoByID_run, GetAllTodos_run. split.
  - destruct (FindByID repo id s) as [[todo|err] s1]; [reflexivity|].
    destruct (Is_ErrRecordNotFound err); reflexivity.
  - destruct (GetAll repo s) as [[todos|err] s1]; reflexivity.
Qed.

(** X2: when the lookup fails, with any error, [UpdateTodo] and [DeleteTodo]
    return an error and make no further repository call: nothing is saved and
    nothing is deleted, and the store is as the lookup left it. *)
Theorem failed_lookup_stops_update_and_delete (id : uint) (req : UpdateTodoRequest)
    (s s1 : Store) (err : error) :
  FindByID repo id s = (Err err, s1) ->
  (exists e, value (UpdateTodo fmt repo id req s) = Err e)
  /\ repo_calls (trace (UpdateTodo fmt repo id req s)) = [RepoFindByID id]
  /\ final (UpdateTodo fmt repo id req s) = s1
  /\ (exists e, value (DeleteTodo repo id s) = Some e)
  /\ repo_calls (trace (DeleteTodo repo id s)) = [RepoFindByID id]
  /\ final (DeleteTodo repo id s) = s1.
Proof.
  intros H.
  rewrite (UpdateTodo_lookup_failed fmt repo id req s s1 err H), DeleteTodo_run, H.
  destruct (Is_ErrRecordNotFound err); simpl; repeat split; eauto.
Qed.

Lemma reconcile_keeps_rest (existing : Todo) (req : UpdateTodoRequest) :
  let e' := fst (reconcile existing req) in
  ID e' = ID existing /\ UserID e' = UserID existing
  /\ CreatedAt e' = CreatedAt existing /\ UpdatedAt e' = UpdatedAt existing
  /\ DeletedAt e' = DeletedAt existing.
Proof.
  unfold reconcile, apply_title, apply_completed.
  destruct (upd_Title req) as [t|], (upd_Completed req) as [c|]; simpl;
    repeat match goal with |- context [if ?b then _ else _] => destruct b; simpl end;
    repeat split.
Qed.

Lemma reconcile_Title_nonempty (existing : Todo) (req : UpdateTodoRequest) :
  Title existing <> EmptyString -> Title (fst (reconcile existing req)) <> EmptyString.
Proof.
  intros Hne. rewrite reconcile_Title. unfold title_changes.
  destruct (upd_Title req) as [t|]; [|exact Hne].
  destruct (String.eqb t EmptyString) eqn:Ht; simpl; [exact Hne|].
  apply String.eqb_neq in Ht.
  destruct (negb (String.eqb t (Title existing))); assumption.
Qed.

Lemma UpdateTodo_saved_entity (id : uint) (req : UpdateTodoRequest)
    (s s1 : Store) (existing e' : Todo) :
  FindByID repo id s = (Ok existing, s1) ->
  In (EvRepo (RepoUpdate e')) (trace (UpdateTodo fmt repo id req s)) ->
  e' = fst (reconcile existing req).
Proof.
  intros H Hin.
  rewrite (UpdateTodo_found fmt repo id req s s1 existing H) in Hin. simpl in Hin.
  destruct (snd (reconcile existing req)).
  - destruct (Update repo _ s1) as [[t [e|]] s2]; simpl in Hin;
      repeat (destruct Hin as [Hin|Hin]; [try discriminate|]); try contradiction;
      now injection Hin as <-.
  - simpl in Hin.
    repeat (destruct Hin as [Hin|Hin]; [try discriminate|]); contradiction.
Qed.

(** X3: the entity [UpdateTodo] hands to the repository's update differs from
    the loaded one in title and completed flag at most: identity, owner and
    the three timestamps are the loaded ones, the title is the loaded or the
    requested one and is not empty if the loaded one was not, the flag is the
    loaded or the requested one. *)
Theorem UpdateTodo_changes_title_and_completed_only (id : uint)
    (req : UpdateTodoRequest) (s s1 : Store) (existing e' : Todo) :
  FindByID repo id s = (Ok existing, s1) ->
  In (EvRepo (RepoUpdate e')) (trace (UpdateTodo fmt repo id req s)) ->
  ID e' = ID existing /\ UserID e' = UserID existing
  /\ CreatedAt e' = CreatedAt existing /\ UpdatedAt e' = UpdatedAt existing
  /\ DeletedAt e' = DeletedAt existing
  /\ (Title e' = Title existing \/ upd_Title req = Some (Title e'))
  /\ (Completed e' = Completed existing \/ upd_Completed req = Some (Completed e'))
  /\ (Title existing <> EmptyString -> Title e' <> EmptyString).
Proof.
  intros H Hin. rewrite (UpdateTodo_saved_entity id req s s1 existing e' H Hin).
  destruct (reconcile_keeps_rest existing req) as (H1 & H2 & H3 & H4 & H5).
  repeat (split; [assumption|]). split; [|split].
  - rewrite reconcile_Title. destruct (upd_Title req) as [t|]; [|now left].
    destruct (title_changes existing _); [now right | now left].
  - rewrite reconcile_Completed. destruct (upd_Completed req) as [c|]; [now right | now left].
  - apply reconcile_Title_nonempty.
Qed.

(** X4: whatever [CreateTodo] hands to the repository's create carries the
    title of the request unchanged (it is not trimmed) and not empty, the
    owner of the request, the flag at false and no identity; and create is
    the only repository call [CreateTodo] ever makes. *)
Theorem CreateTodo_entity (req : CreateTodoRequest) (s : Store) (t : Todo) :
  (In (EvRepo (RepoCreate t)) (trace (CreateTodo fmt repo req s)) ->
     Title t = req_Title req /\ Title t <> EmptyString
     /\ UserID t = req_UserID req /\ Completed t = false /\ ID t = 0)
  /\ (repo_calls (trace (CreateTodo fmt repo req s)) = []
      \/ repo_calls (trace (CreateTodo fmt repo req s)) = [RepoCreate (newTodo_of req)]).
Proof.
  destruct (String.eqb_spec (req_Title req) EmptyString) as [E|E].
  - rewrite (CreateTodo_empty_title fmt repo req s E). simpl. split; [tauto | now left].
  - rewrite (CreateTodo_nonempty_title fmt repo req s E).
    destruct (Create repo (newTodo_of req) s) as [[t' [e|]] s1]; simpl;
      (split; [|now right]); intros Hin;
      repeat (destruct Hin as [Hin|Hin]; [try discriminate|]); try contradiction;
      injection Hin as <-; simpl; repeat split; assumption.
Qed.

Lemma reconcile_twice (existing reloaded : Todo) (req : UpdateTodoRequest) :
  Title reloaded = Title (fst (reconcile existing req)) ->
  Completed reloaded = Completed (fst (reconcile existing req)) ->
  snd (reconcile reloaded req) = false.
Proof.
  intros HT HC. rewrite reconcile_dirty.
  rewrite reconcile_Title in HT. rewrite reconcile_Completed in HC.
  apply orb_false_iff. split.
  - unfold title_changes in *. destruct (upd_Title req) as [t|]; [|reflexivity].
    destruct (String.eqb t EmptyString) eqn:Ht; simpl in *; [reflexivity|].
    destruct (String.eqb t (Title existing)) eqn:Hd; simpl in HT.
    + apply String.eqb_eq in Hd. now rewrite HT, <- Hd, String.eqb_refl.
    + now rewrite HT, String.eqb_refl.
  - unfold completed_changes. destruct (upd_Completed req) as [c|]; [|reflexivity].
    now rewrite HC, Bool.eqb_reflx.
Qed.

(** X5: sending the same update a second time changes nothing: on a store
    that gives back, for title and completed flag, what the first call saved,
    the second call finds no field dirty, answers from the reloaded entity
    and does not call the repository's update again. *)
Theorem UpdateTodo_same_request_twice (id : uint) (req : UpdateTodoRequest)
    (s s1 s2 s3 : Store) (existing saved reloaded : Todo) :
  FindByID repo id s = (Ok existing, s1) ->
  snd (reconcile existing req) = true ->
  Update repo (fst (reconcile existing req)) s1 = ((saved, None), s2) ->
  FindByID repo id s2 = (Ok reloaded, s3) ->
  Title reloaded = Title (fst (reconcile existing req)) ->
  Completed reloaded = Completed (fst (reconcile existing req)) ->
  value (repeatM 2 (UpdateTodo fmt repo id req) s)
  = [Ok (response_of fmt saved); Ok (response_of fmt reloaded)]
  /\ repo_calls (trace (repeatM 2 (UpdateTodo fmt repo id req) s))
     = [RepoFindByID id; RepoUpdate (fst (reconcile existing req)); RepoFindByID id]
  /\ final (repeatM 2 (UpdateTodo fmt repo id req) s) = s3.
Proof.
  intros H1 Hd H2 H3 HT HC.
  pose proof (UpdateTodo_clean fmt repo id req s2 s3 reloaded H3
                (reconcile_twice existing reloaded req HT HC)) as Hsecond.
  simpl. unfold bind, ret.
  rewrite (UpdateTodo_found fmt repo id req s s1 existing H1). simpl.
  rewrite Hd, H2, Hsecond. repeat split.
Qed.

(** X6: what a successful create or update answers is what a lookup through
    the service answers next, on a store that gives back the entity it
    saved. *)
Theorem GetTodoByID_after_write (id : uint) (req : UpdateTodoRequest)
    (creq : CreateTodoRequest) (s s1 s2 s3 c1 c2 : Store)
    (existing saved created : Todo) :
  (FindByID repo id s = (Ok existing, s1) ->
   snd (reconcile existing req) = true ->
   Update repo (fst (reconcile existing req)) s1 = ((saved, None), s2) ->
   FindByID repo id s2 = (Ok saved, s3) ->
   final (UpdateTodo fmt repo id req s) = s2
   /\ value (GetTodoByID fmt repo id s2) = value (UpdateTodo fmt repo id req s))
  /\ (req_Title creq <> EmptyString ->
      Create repo (newTodo_of creq) s = ((created, None), c1) ->
      FindByID repo (ID created) c1 = (Ok created, c2) ->
      final (CreateTodo fmt repo creq s) = c1
      /\ value (GetTodoByID fmt repo (ID created) c1) = value (CreateTodo fmt repo creq s)).
Proof.
  split.
  - intros H1 Hd H2 H3.
    rewrite (UpdateTodo_found fmt repo id req s s1 existing H1). simpl.
    rewrite Hd, H2, GetTodoByID_run, H3. split; reflexivity.
  - intros Hne H1 H2.
    rewrite (CreateTodo_nonempty_title fmt repo creq s Hne), H1, GetTodoByID_run, H2.
    split; reflexivity.
Qed.

(** X7: every error the five operations of the service return is a plain
    message out of a fixed list, which depends on the identity the operation
    was called with and on nothing else: the text of a repository error is
    never part of it. *)
Theorem service_errors_are_fixed_messages (id : uint) (req : UpdateTodoRequest)
    (creq : CreateTodoRequest) (s : Store) (err : error) :
  value (CreateTodo fmt repo creq s) = Err err
  \/ value (GetTodoByID fmt repo id s) = Err err
  \/ value (GetAllTodos fmt repo s) = Err err
  \/ value (UpdateTodo fmt repo id req s) = Err err
  \/ value (DeleteTodo repo id s) = Some err ->
  exists m, err = errorString m /\ In m (service_messages id).
Proof.
  unfold service_messages.
  intros [H|[H|[H|[H|H]]]].
  - destruct (String.eqb_spec (req_Title creq) EmptyString) as [E|E].
    + rewrite (CreateTodo_empty_title fmt repo creq s E) in H. injection H as <-.
      eexists; split; [reflexivity | simpl; tauto].
    + rewrite (CreateTodo_nonempty_title fmt repo creq s E) in H.
      destruct (Create repo (newTodo_of creq) s) as [[t [e|]] s1]; simpl in H;
        [|discriminate].
      injection H as <-. eexists; split; [reflexivity | simpl; tauto].
  - rewrite GetTodoByID_run in H.
    destruct (FindByID repo id s) as [[todo|e] s1]; simpl in H; [discriminate|].
    destruct (Is_ErrRecordNotFound e); simpl in H; injection H as <-;
      (eexists; split; [reflexivity | simpl; tauto]).
  - rewrite GetAllTodos_run in H.
    destruct (GetAll repo s) as [[todos|e] s1]; simpl in H; [discriminate|].
    injection H as <-. eexists; split; [reflexivity | simpl; tauto].
  - destruct (FindByID repo id s) as [[todo|e] s1] eqn:Hf.
    + rewrite (UpdateTodo_found fmt repo id req s s1 todo Hf) in H. simpl in H.
      destruct (snd (reconcile todo req)); [|discriminate].
      destruct (Update repo _ s1) as [[t [e|]] s2]; simpl in H; [|discriminate].
      injection H as <-. eexists; split; [reflexivity | simpl; tauto].
    + rewrite (UpdateTodo_lookup_failed fmt repo id req s s1 e Hf) in H.
      destruct (Is_ErrRecordNotFound e); simpl in H; injection H as <-;
        (eexists; split; [reflexivity | simpl; tauto]).
  - rewrite DeleteTodo_run in H.
    destruct (FindByID repo id s) as [[todo|e] s1]; simpl in H.
    + destruct (Delete repo id s1) as [[e|] s2]; simpl in H; [|discriminate].
      injection H as <-. eexists; split; [reflexivity | simpl; tauto].
    + destruct (Is_ErrRecordNotFound e); simpl in H; injection H as <-;
        (eexists; split; [reflexivity | simpl; tauto]).
Qed.

(** X8: [DeleteTodo] succeeds exactly when the lookup finds the record and the
    repository's delete then returns no error, and [UpdateTodo] succeeds
    exactly when the lookup finds the record and either no field is dirty or
    the repository's update returns no error. *)
Theorem delete_and_update_succeed_iff (id : uint) (req : UpdateTodoRequest) (s : Store) :
  (value (DeleteTodo repo id s) = None <->
     exists todo s1, FindByID repo id s = (Ok todo, s1)
                     /\ fst (Delete repo id s1) = None)
  /\ ((exists resp, value (UpdateTodo fmt repo id req s) = Ok resp) <->
      exists todo s1, FindByID repo id s = (Ok todo, s1)
                      /\ (snd (reconcile todo req) = false
                          \/ snd (fst (Update repo (fst (reconcile todo req)) s1)) = None)).
Proof.
  split; split.
  - rewrite DeleteTodo_run.
    destruct (FindByID repo id s) as [[todo|e] s1].
    + destruct (Delete repo id s1) as [[e|] s2] eqn:Hd; simpl; [discriminate|].
      intros _. exists todo, s1. now rewrite Hd.
    + destruct (Is_ErrRecordNotFound e); discriminate.
  - intros (todo & s1 & Hf & Hd). rewrite DeleteTodo_run, Hf.
    destruct (Delete repo id s1) as [[e|] s2]; simpl in *; [discriminate | reflexivity].
  - intros [resp H].
    destruct (FindByID repo id s) as [[todo|e] s1] eqn:Hf.
    + exists todo, s1. split; [reflexivity|].
      rewrite (UpdateTodo_found fmt repo id req s s1 todo Hf) in H. simpl in H.
      destruct (snd (reconcile todo req)); [|now left].
      destruct (Update repo _ s1) as [[t [e|]] s2]; simpl in *; [discriminate | now right].
    + rewrite (UpdateTodo_lookup_failed fmt repo id req s s1 e Hf) in H.
      destruct (Is_ErrRecordNotFound e); discriminate.
  - intros (todo & s1 & Hf & Hc).
    rewrite (UpdateTodo_found fmt repo id req s s1 todo Hf). simpl.
    destruct (snd (reconcile todo req)) eqn:Hd.
    + destruct Hc as [Hc|Hc]; [discriminate|].
      destruct (Update repo _ s1) as [[t [e|]] s2]; simpl in *; [discriminate | eauto].
    + eauto.
Qed.

End ServiceFurther.

(** * Further properties of the transport adapter *)

Section TransportFurther.
Variable Quote : string -> string.
Context {Store : Type}.
Variable svc : TodoService Store.

Lemma createTodoHandler_decode_failure (err : DecodeError) (s : Store) :
  createTodoHandler Quote svc (inr err) s =
    match decode_kind err with
    | KOther =>
        ({| StatusCode := StatusInternalServerError;
            Body := JError "Error processing request" |}, s,
         [EvLog ("Error decoding create todo request: " +:+ DecodeError_Error err)])
    | _ =>
        ({| StatusCode := StatusBadRequest;
            Body := Body (value (createTodoHandler Quote svc (inr err) s)) |}, s, [])
    end.
Proof.
  unfold createTodoHandler, decode_kind.
  destruct err as [msg off| |v ty off st fld| |msg]; try reflexivity.
  simpl As_SyntaxError. simpl Is_ErrUnexpectedEOF. simpl As_UnmarshalTypeError.
  simpl Is_EOF. cbv iota.
  destruct (HasPrefix (DecodeError_Error (otherError msg)) "json: unknown field ");
    reflexivity.
Qed.

(** X9: a body that fails to decode never reaches the service behind
    [createTodoHandler]: the store is untouched and no service call is made;
    the answer is 400, except for a failure of none of the five known kinds,
    which is logged and answered with 500 and a fixed message. Failures of
    different kinds get different answers. *)
Theorem createTodoHandler_decode_failures (e1 e2 : DecodeError) (s : Store) :
  let r1 := createTodoHandler Quote svc (inr e1) s in
  let r2 := createTodoHandler Quote svc (inr e2) s in
  final r1 = s
  /\ svc_calls (trace r1) = []
  /\ StatusCode (value r1)
     = match decode_kind e1 with
       | KOther => StatusInternalServerError
       | _ => StatusBadRequest
       end
  /\ (decode_kind e1 = KOther ->
      Body (value r1) = JError "Error processing request")
  /\ (decode_kind e1 <> decode_kind e2 -> value r1 <> value r2).
Proof.
  intros r1 r2. subst r1 r2.
  split; [|split; [|split; [|split]]].
  - rewrite createTodoHandler_decode_failure. destruct (decode_kind e1); reflexivity.
  - rewrite createTodoHandler_decode_failure. destruct (decode_kind e1); reflexivity.
  - rewrite createTodoHandler_decode_failure. destruct (decode_kind e1); reflexivity.
  - intros Hk. rewrite createTodoHandler_decode_failure, Hk. reflexivity.
  - unfold createTodoHandler, decode_kind.
    destruct e1 as [m1 o1| |v1 t1 o1 s1 f1| |m1], e2 as [m2 o2| |v2 t2 o2 s2 f2| |m2];
      simpl As_SyntaxError; simpl Is_ErrUnexpectedEOF; simpl As_UnmarshalTypeError;
      simpl Is_EOF; cbv iota;
      repeat match goal with
             | |- context [HasPrefix ?a ?b] => destruct (HasPrefix a b)
             end;
      intros Hk; try (exfalso; apply Hk; reflexivity);
      unfold respondWithError, respondWithJSON, ret, bind, log_Printf, emit, value;
      simpl; intros Heq; discriminate Heq.
Qed.

(** X10: each of the three handlers with a path identity gives one of a closed
    set of answers, decided by the identity check, the decoding and the
    result of the service alone, whatever the service is: the 400 for a bad
    identity (and, for the update, the 400 for a body that does not decode);
    a 404 carrying the message of the service error when that message
    contains the words not found; a 500 with the fixed message of the handler,
    never the message of the service error, for every other service error; on
    success 200 with the todo the service returned, or 204 without a body. *)
Theorem path_handlers_answers (idStr : string)
    (decoded : UpdateTodoRequest + DecodeError) (s : Store) :
  let id := decimal_value idStr 0 in
  let on_error (err : error) (fixed : string) :=
    if Contains (Error err) "not found"
    then {| StatusCode := StatusNotFound; Body := JError (Error err) |}
    else {| StatusCode := StatusInternalServerError; Body := JError fixed |} in
  value (getTodoByIDHandler svc idStr s)
  = (if invalid_id (ParseUint idStr) then invalid_id_response
     else match value (svc_GetTodoByID svc id s) with
          | Ok todo => {| StatusCode := StatusOK; Body := JTodo todo |}
          | Err err => on_error err "Failed to retrieve todo"
          end)
  /\ value (updateTodoHandler svc idStr decoded s)
     = (if invalid_id (ParseUint idStr) then invalid_id_response
        else match decoded with
             | inr _ => invalid_body_response
             | inl req =>
                 match value (svc_UpdateTodo svc id req s) with
                 | Ok todo => {| StatusCode := StatusOK; Body := JTodo todo |}
                 | Err err => on_error err "Failed to update todo"
                 end
             end)
  /\ value (deleteTodoHandler svc idStr s)
     = (if invalid_id (ParseUint idStr) then invalid_id_response
        else match value (svc_DeleteTodo svc id s) with
             | None => {| StatusCode := StatusNoContent; Body := NoBody |}
             | Some err => on_error err "Failed to delete todo"
             end).
Proof.
  intros id on_error. subst id on_error. cbv beta.
  unfold getTodoByIDHandler, updateTodoHandler, deleteTodoHandler.
  destruct (invalid_id (ParseUint idStr)) eqn:Hid; [repeat split|].
  destruct (valid_id_positive idStr Hid) as (_ & _ & _ & ->).
  split; [|split].
  - run_M. destruct (svc_GetTodoByID svc _ s) as [[[todo|err] s1] t]; simpl; [reflexivity|].
    destruct (Contains (Error err) "not found"); reflexivity.
  - destruct decoded as [req|err]; [|reflexivity].
    run_M. destruct (svc_UpdateTodo svc _ req s) as [[[todo|err] s1] t]; simpl; [reflexivity|].
    destruct (Contains (Error err) "not found"); reflexivity.
  - run_M. destruct (svc_DeleteTodo svc _ s) as [[[err|] s1] t]; simpl; [|reflexivity].
    destruct (Contains (Error err) "not found"); reflexivity.
Qed.

(** X11: once the path identity is accepted, [getTodoByIDHandler] and
    [deleteTodoHandler] call the service exactly once, with the number the
    path denotes, before anything else; after the service returns they write
    log lines at most, and the store is left as the service left it. So does
    [updateTodoHandler] when the body decodes; when the body does not decode
    it makes no service call at all: it logs the failure and leaves the store
    untouched. *)
Theorem path_handlers_call_the_service_once (idStr : string)
    (decoded : UpdateTodoRequest + DecodeError) (s : Store) :
  invalid_id (ParseUint idStr) = false ->
  let id := decimal_value idStr 0 in
  (exists logs,
     trace (getTodoByIDHandler svc idStr s)
     = (EvSvc (SvcGetTodoByID id) :: trace (svc_GetTodoByID svc id s) ++ logs)%list
     /\ forallb is_log logs = true)
  /\ final (getTodoByIDHandler svc idStr s) = final (svc_GetTodoByID svc id s)
  /\ match decoded with
     | inl req =>
         (exists logs,
            trace (updateTodoHandler svc idStr decoded s)
            = (EvSvc (SvcUpdateTodo id req)
               :: trace (svc_UpdateTodo svc id req s) ++ logs)%list
            /\ forallb is_log logs = true)
         /\ final (updateTodoHandler svc idStr decoded s)
            = final (svc_UpdateTodo svc id req s)
     | inr err =>
         trace (updateTodoHandler svc idStr decoded s)
         = [EvLog ("Error decoding update todo request: " +:+ DecodeError_Error err)]
         /\ svc_calls (trace (updateTodoHandler svc idStr decoded s)) = []
         /\ final (updateTodoHandler svc idStr decoded s) = s
     end
  /\ (exists logs,
        trace (deleteTodoHandler svc idStr s)
        = (EvSvc (SvcDeleteTodo id) :: trace (svc_DeleteTodo svc id s) ++ logs)%list
        /\ forallb is_log logs = true)
  /\ final (deleteTodoHandler svc idStr s) = final (svc_DeleteTodo svc id s).
Proof.
  intros Hid id. subst id.
  unfold getTodoByIDHandler, updateTodoHandler, deleteTodoHandler. rewrite Hid.
  destruct (valid_id_positive idStr Hid) as (_ & _ & _ & ->).
  split; [|split; [|split; [|split]]].
  - run_M. destruct (svc_GetTodoByID svc _ s) as [[[todo|err] s1] t]; simpl;
      [exists []; now rewrite app_nil_r|].
    destruct (Contains (Error err) "not found"); simpl; eexists; split; reflexivity.
  - run_M. destruct (svc_GetTodoByID svc _ s) as [[[todo|err] s1] t]; simpl;
      [reflexivity|].
    destruct (Contains (Error err) "not found"); reflexivity.
  - destruct decoded as [req|err]; [|repeat split]. split.
    + run_M. destruct (svc_UpdateTodo svc _ req s) as [[[todo|err] s1] t]; simpl;
        [exists []; now rewrite app_nil_r|].
      destruct (Contains (Error err) "not found"); simpl; eexists; split; reflexivity.
    + run_M. destruct (svc_UpdateTodo svc _ req s) as [[[todo|err] s1] t]; simpl;
        [reflexivity|].
      destruct (Contains (Error err) "not found"); reflexivity.
  - run_M. destruct (svc_DeleteTodo svc _ s) as [[[err|] s1] t]; simpl;
      [|exists []; now rewrite app_nil_r].
    destruct (Contains (Error err) "not found"); simpl; eexists; split; reflexivity.
  - run_M. destruct (svc_DeleteTodo svc _ s) as [[[err|] s1] t]; simpl;
      [|reflexivity].
    destruct (Contains (Error err) "not found"); reflexivity.
Qed.

End TransportFurther.

(** ** Identities in decimal *)

Lemma decimal_value_of_uint_acc (d : Decimal.uint) (acc : positive) :
  decimal_value (NilEmpty.string_of_uint d) (N.pos acc) = N.pos (Pos.of_uint_acc d acc).
Proof.
  revert acc. induction d; intros acc; simpl; [reflexivity|..];
    rewrite <- IHd; f_equal; lia.
Qed.

Lemma decimal_value_of_uint (d : Decimal.uint) :
  decimal_value (NilEmpty.string_of_uint d) 0 = Pos.of_uint d.
Proof.
  induction d; simpl; [reflexivity | exact IHd | ..];
    apply (decimal_value_of_uint_acc d).
Qed.

Lemma all_digits_of_uint (d : Decimal.uint) :
  all_digits (NilEmpty.string_of_uint d) = true.
Proof. induction d; simpl; [reflexivity|..]; exact IHd. Qed.

Lemma fmt_d_digits (n : N) :
  fmt_d n <> EmptyString /\ all_digits (fmt_d n) = true /\ decimal_value (fmt_d n) 0 = n.
Proof.
  assert (Hnn : N.to_uint n <> Decimal.Nil).
  { destruct n as [|p]; [discriminate | apply DecimalPos.Unsigned.to_uint_nonnil]. }
  assert (E : NilZero.string_of_uint (N.to_uint n)
              = NilEmpty.string_of_uint (N.to_uint n)).
  { destruct (N.to_uint n); [congruence | reflexivity..]. }
  unfold fmt_d. rewrite E. split; [|split].
  - destruct (N.to_uint n); [congruence | discriminate..].
  - apply all_digits_of_uint.
  - rewrite decimal_value_of_uint. apply DecimalN.Unsigned.of_to.
Qed.

(** X12: printing an identity in decimal and parsing it back gives the same
    identity: every identity from 1 to [2^64 - 1], written as [%d] writes
    it, is accepted by the check of the handlers and denotes itself. *)
Theorem ParseUint_fmt_d (id : uint) :
  id <= maxUint64 ->
  ParseUint (fmt_d id) = (id, None)
  /\ (1 <= id -> invalid_id (ParseUint (fmt_d id)) = false
                 /\ uint_of_uint64 (fst (ParseUint (fmt_d id))) = id).
Proof.
  intros Hle. destruct (fmt_d_digits id) as (Hne & Hd & Hv).
  assert (Hp : ParseUint (fmt_d id) = (id, None)).
  { rewrite (ParseUint_digits _ Hne Hd), Hv.
    apply N.leb_le in Hle. now rewrite Hle. }
  split; [exact Hp|]. intros Hpos. rewrite Hp. unfold invalid_id, uint_of_uint64. simpl.
  split.
  - destruct (N.eqb_spec id 0); [lia | reflexivity].
  - apply N.mod_small. unfold maxUint64 in Hle.
    change (2 ^ 64) with 18446744073709551616. lia.
Qed.

Lemma ParseUint_leading_zero (s : string) :
  s <> EmptyString -> ParseUint (String "0" s) = ParseUint s.
Proof. intros H. destruct s as [|c s]; [congruence | reflexivity]. Qed.

Section LeadingZeros.
Context {Store : Type}.
Variable svc : TodoService Store.

(** X13: zeros in front of a path identity do not matter: [ParseUint] gives
    the same result with and without a leading zero on a non-empty string,
    and the three handlers with a path identity behave the same on both
    paths, for every string. *)
Theorem leading_zero_is_ignored (idStr : string)
    (decoded : UpdateTodoRequest + DecodeError) (s : Store) :
  (idStr <> EmptyString -> ParseUint (String "0" idStr) = ParseUint idStr)
  /\ getTodoByIDHandler svc (String "0" idStr) s = getTodoByIDHandler svc idStr s
  /\ updateTodoHandler svc (String "0" idStr) decoded s
     = updateTodoHandler svc idStr decoded s
  /\ deleteTodoHandler svc (String "0" idStr) s = deleteTodoHandler svc idStr s.
Proof.
  split; [apply ParseUint_leading_zero|].
  unfold getTodoByIDHandler, updateTodoHandler, deleteTodoHandler.
  destruct idStr as [|c rest]; [repeat split|].
  rewrite (ParseUint_leading_zero (String c rest)) by discriminate.
  repeat split.
Qed.

End LeadingZeros.

Section EndToEnd.
Variable fmt : Time -> string.
Variable Quote : string -> string.
Context {Store : Type}.
Variable repo : TodoRepository Store.

Lemma handler_id (idStr : string) :
  invalid_id (ParseUint idStr) = false ->
  uint_of_uint64 (fst (ParseUint idStr)) = decimal_value idStr 0.
Proof. intros H. now destruct (valid_id_positive idStr H) as (_ & _ & _ & ->). Qed.

(** X14: a request for an identity no record matches is answered with 404 and
    the message of the service, which names the number the path denotes in
    plain decimal; the lookup is the only repository call made. This holds
    for [GET] and [DELETE], and for [PUT] when the body decodes; a [PUT]
    whose body does not decode is answered with the 400 for a bad body before
    any lookup, whether or not a record matches. *)
Theorem missing_record_is_404_with_its_id (idStr : string)
    (decoded : UpdateTodoRequest + DecodeError)
    (s s1 : Store) (err : error) :
  invalid_id (ParseUint idStr) = false ->
  FindByID repo (decimal_value idStr 0) s = (Err err, s1) ->
  Is_ErrRecordNotFound err = true ->
  let id := decimal_value idStr 0 in
  let svc := NewTodoService fmt repo in
  let answer (suffix : string) :=
    {| StatusCode := StatusNotFound;
       Body := JError ("todo with ID " +:+ fmt_d id +:+ " not found" +:+ suffix) |} in
  getTodoByIDHandler svc idStr s
  = (answer EmptyString, s1, [EvSvc (SvcGetTodoByID id); EvRepo (RepoFindByID id)])
  /\ updateTodoHandler svc idStr decoded s
     = match decoded with
       | inl req =>
           (answer " for update", s1,
            [EvSvc (SvcUpdateTodo id req); EvRepo (RepoFindByID id)])
       | inr derr =>
           (invalid_body_response, s,
            [EvLog ("Error decoding update todo request: " +:+ DecodeError_Error derr)])
       end
  /\ deleteTodoHandler svc idStr s
     = (answer " for deletion", s1,
        [EvSvc (SvcDeleteTodo id); EvRepo (RepoFindByID id)]).
Proof.
  intros Hid Hf Hnf id svc answer. subst id svc answer.
  pose proof (not_found_message (decimal_value idStr 0) EmptyString) as N1.
  pose proof (not_found_message (decimal_value idStr 0) " for update") as N2.
  pose proof (not_found_message (decimal_value idStr 0) " for deletion") as N3.
  unfold getTodoByIDHandler, updateTodoHandler, deleteTodoHandler.
  rewrite Hid, (handler_id idStr Hid).
  unfold svc_call, bind, emit, NewTodoService, svc_GetTodoByID, svc_UpdateTodo,
         svc_DeleteTodo.
  rewrite GetTodoByID_run, DeleteTodo_run, Hf, Hnf.
  cbv beta iota. unfold Error, errors_New, msg_not_found. rewrite N1, N3.
  split; [reflexivity|]. split; [|reflexivity].
  destruct decoded as [req|derr]; [|reflexivity].
  rewrite (UpdateTodo_lookup_failed fmt repo _ req s s1 err Hf), Hnf.
  cbv beta iota. unfold Error, errors_New, msg_not_found. rewrite N2. reflexivity.
Qed.

(** X15: [POST /todos] with a body that decodes is answered according to the
    title and to the repository alone: 400 with the validation message and no
    repository call when the title is empty; otherwise one create, then 201
    with the entity as the repository left it, or 500 with a fixed message
    when the create failed. *)
Theorem createTodoHandler_answers (req : CreateTodoRequest) (s : Store) :
  let r := createTodoHandler Quote (NewTodoService fmt repo) (inl req) s in
  (req_Title req = EmptyString ->
     value r = {| StatusCode := StatusBadRequest; Body := JError "title cannot be empty" |}
     /\ final r = s /\ repo_calls (trace r) = [])
  /\ (req_Title req <> EmptyString ->
      repo_calls (trace r) = [RepoCreate (newTodo_of req)]
      /\ final r = snd (Create repo (newTodo_of req) s)
      /\ value r
         = match fst (Create repo (newTodo_of req) s) with
           | (created, None) =>
               {| StatusCode := StatusCreated; Body := JTodo (response_of fmt created) |}
           | (_, Some _) =>
               {| StatusCode := StatusInternalServerError;
                  Body := JError "Failed to create todo" |}
           end).
Proof.
  intros r. subst r.
  unfold createTodoHandler, svc_call, bind, emit, NewTodoService, svc_CreateTodo.
  split; intros H.
  - rewrite (CreateTodo_empty_title fmt repo req s H). repeat split.
  - rewrite (CreateTodo_nonempty_title fmt repo req s H).
    destruct (Create repo (newTodo_of req) s) as [[t [e|]] s1]; repeat split.
Qed.

End EndToEnd.

(** * The health check *)

Section HealthProps.
Variable Duration_String : Z -> string.

Lemma Health_up_message (db : DBState) :
  db_error db = None -> ping_error db = None ->
  fst (Health Duration_String db) !! "message" =
    Some (if lifetime_closed (db_stats db) then msg_lifetime_closed
          else if idle_closed (db_stats db) then msg_idle_closed
          else if many_waits (db_stats db) then msg_wait_events
          else if heavy_load (db_stats db) then msg_heavy_load
          else msg_healthy).
Proof.
  intros H1 H2. unfold Health, lifetime_closed, idle_closed, many_waits, heavy_load.
  rewrite H1, H2. cbv zeta.
  destruct (Z.quot (OpenConnections (db_stats db)) 2 <? MaxLifetimeClosed (db_stats db))%Z;
  destruct ((Z.quot (OpenConnections (db_stats db)) 2 <? MaxIdleClosed (db_stats db))%Z
            && (Idle (db_stats db) <? OpenConnections (db_stats db))%Z);
  destruct (1000 <? WaitCount (db_stats db))%Z;
  destruct (80 <? OpenConnections (db_stats db))%Z;
  cbn [fst]; now simplify_map_eq.
Qed.

Lemma Health_up_entries (db : DBState) :
  db_error db = None -> ping_error db = None ->
  let m := fst (Health Duration_String db) in
  let st := db_stats db in
  m !! "status" = Some "up"
  /\ m !! "error" = None
  /\ m !! "open_connections" = Some (fmt_dZ (OpenConnections st))
  /\ m !! "in_use" = Some (fmt_dZ (InUse st))
  /\ m !! "idle" = Some (fmt_dZ (Idle st))
  /\ m !! "wait_count" = Some (fmt_dZ (WaitCount st))
  /\ m !! "wait_duration" = Some (Duration_String (WaitDuration st))
  /\ m !! "max_idle_closed" = Some (fmt_dZ (MaxIdleClosed st))
  /\ m !! "max_lifetime_closed" = Some (fmt_dZ (MaxLifetimeClosed st))
  /\ size m = 9%nat.
Proof.
  intros H1 H2. unfold Health. rewrite H1, H2. cbv zeta.
  destruct (Z.quot (OpenConnections (db_stats db)) 2 <? MaxLifetimeClosed (db_stats db))%Z;
  destruct ((Z.quot (OpenConnections (db_stats db)) 2 <? MaxIdleClosed (db_stats db))%Z
            && (Idle (db_stats db) <? OpenConnections (db_stats db))%Z);
  destruct (1000 <? WaitCount (db_stats db))%Z;
  destruct (80 <? OpenConnections (db_stats db))%Z;
  cbn [fst]; repeat split; try (now simplify_map_eq); reflexivity.
Qed.

End HealthProps.

Section HealthTheorems.
Variable Duration_String : Z -> string.

(** X16: the health handler answers 503 exactly when obtaining the database
    handle or the ping failed, and 200 otherwise, always with the map [Health]
    built. A failed check reports two entries, the status down and an error
    entry made of a fixed prefix and the text of the failure itself; a passed check
    reports nine entries, the status up, a message and the seven statistics
    in decimal, and no error entry. *)
Theorem healthHandler_status (db : DBState) :
  let r := healthHandler Duration_String db in
  let st := db_stats db in
  snd r = fst (Health Duration_String db)
  /\ match db_error db, ping_error db with
     | None, None =>
         fst r = StatusOK
         /\ snd r !! "status" = Some "up"
         /\ snd r !! "error" = None
         /\ snd r !! "open_connections" = Some (fmt_dZ (OpenConnections st))
         /\ snd r !! "in_use" = Some (fmt_dZ (InUse st))
         /\ snd r !! "idle" = Some (fmt_dZ (Idle st))
         /\ snd r !! "wait_count" = Some (fmt_dZ (WaitCount st))
         /\ snd r !! "wait_duration" = Some (Duration_String (WaitDuration st))
         /\ snd r !! "max_idle_closed" = Some (fmt_dZ (MaxIdleClosed st))
         /\ snd r !! "max_lifetime_closed" = Some (fmt_dZ (MaxLifetimeClosed st))
         /\ size (snd r) = 9%nat
     | Some err, _ =>
         fst r = StatusServiceUnavailable
         /\ snd r !! "status" = Some "down"
         /\ snd r !! "error"
            = Some ("failed to get underlying DB for health check: " +:+ Error err)
         /\ snd r !! "message" = None
         /\ size (snd r) = 2%nat
     | None, Some err =>
         fst r = StatusServiceUnavailable
         /\ snd r !! "status" = Some "down"
         /\ snd r !! "error" = Some ("db down: " +:+ Error err)
         /\ snd r !! "message" = None
         /\ size (snd r) = 2%nat
     end.
Proof.
  intros r st. subst r st.
  assert (Hbody : snd (healthHandler Duration_String db) = fst (Health Duration_String db)).
  { unfold healthHandler.
    destruct (fst (Health Duration_String db) !! "status") as [status|]; [|reflexivity].
    destruct (String.eqb status "down"); reflexivity. }
  split; [exact Hbody|].
  destruct (db_error db) as [err|] eqn:H1; [|destruct (ping_error db) as [err|] eqn:H2].
  - rewrite Hbody. unfold healthHandler, Health. rewrite H1. cbn [fst].
    repeat split; now simplify_map_eq.
  - rewrite Hbody. unfold healthHandler, Health. rewrite H1, H2. cbn [fst].
    repeat split; now simplify_map_eq.
  - destruct (Health_up_entries Duration_String db H1 H2)
      as (E1 & E2 & E3 & E4 & E5 & E6 & E7 & E8 & E9 & E10).
    rewrite Hbody. unfold healthHandler. rewrite E1. simpl.
    repeat split; assumption.
Qed.

(** X17: when the database answers, the message of the health check is decided
    by four tests on the statistics, the last one that holds winning: closed
    by lifetime, closed while idle, many waits, heavy load; the message says
    healthy exactly when at most 80 connections are open, at most 1000 waits
    were counted, and neither kind of closing exceeds half the open
    connections (for idle closing, while more are open than idle). *)
Theorem Health_message (db : DBState) :
  db_error db = None -> ping_error db = None ->
  let m := fst (Health Duration_String db) in
  let st := db_stats db in
  m !! "message" =
    Some (if lifetime_closed st then msg_lifetime_closed
          else if idle_closed st then msg_idle_closed
          else if many_waits st then msg_wait_events
          else if heavy_load st then msg_heavy_load
          else msg_healthy)
  /\ (m !! "message" = Some msg_healthy <->
      (OpenConnections st <= 80)%Z
      /\ (WaitCount st <= 1000)%Z
      /\ ~ ((Z.quot (OpenConnections st) 2 < MaxIdleClosed st)%Z
            /\ (Idle st < OpenConnections st)%Z)
      /\ (MaxLifetimeClosed st <= Z.quot (OpenConnections st) 2)%Z).
Proof.
  intros H1 H2 m st. subst m st.
  pose proof (Health_up_message Duration_String db H1 H2) as Hm.
  split; [exact Hm|]. rewrite Hm.
  unfold lifetime_closed, idle_closed, many_waits, heavy_load.
  destruct (Z.ltb_spec (Z.quot (OpenConnections (db_stats db)) 2)
                       (MaxLifetimeClosed (db_stats db))) as [A|A];
  destruct (Z.ltb_spec (Z.quot (OpenConnections (db_stats db)) 2)
                       (MaxIdleClosed (db_stats db))) as [B|B];
  destruct (Z.ltb_spec (Idle (db_stats db)) (OpenConnections (db_stats db))) as [C|C];
  destruct (Z.ltb_spec 1000 (WaitCount (db_stats db))) as [D|D];
  destruct (Z.ltb_spec 80 (OpenConnections (db_stats db))) as [E|E];
  simpl; split;
    try (intros [= Heq]; discriminate Heq);
    try (intros (? & ? & ? & ?); exfalso; (lia || tauto));
    try (intros _; repeat split; try lia; intros [? ?]; lia).
Qed.

End HealthTheorems.

(** * The listen address *)

Lemma pow10_succ (k : nat) : 10 ^ N.of_nat (S k) = 10 * 10 ^ N.of_nat k.
Proof. rewrite Nat2N.inj_succ. apply N.pow_succ_r'. Qed.

Lemma pow10_pos (k : nat) : 0 < 10 ^ N.of_nat k.
Proof. apply N.neq_0_lt_0, N.pow_nonzero. discriminate. Qed.

Lemma pow10_mono (j k : nat) : (j <= k)%nat -> 10 ^ N.of_nat j <= 10 ^ N.of_nat k.
Proof. intros H. apply N.pow_le_mono_r; [discriminate | lia]. Qed.

Lemma decimal_value_bound (s : string) (n : N) :
  all_digits s = true ->
  decimal_value s n + 1 <= (n + 1) * 10 ^ N.of_nat (String.length s).
Proof.
  revert n. induction s as [|c s IH]; intros n Hd; simpl in *.
  - lia.
  - apply andb_true_iff in Hd as [Hc Hs].
    pose proof (is_digit_bounds c Hc) as Hb.
    specialize (IH (n * 10 + (N_of_ascii c - 48)) Hs).
    pose proof (pow10_pos (String.length s)) as Hp.
    change (N.pos (Pos.of_succ_nat (String.length s)))
      with (N.of_nat (S (String.length s))).
    rewrite pow10_succ.
    etransitivity; [exact IH|].
    replace ((n + 1) * (10 * 10 ^ N.of_nat (String.length s)))
      with ((n * 10 + 10) * 10 ^ N.of_nat (String.length s)) by lia.
    apply N.mul_le_mono_r. lia.
Qed.

Lemma int64_wrap_small (z : Z) :
  (- 2 ^ 63 <= z < 2 ^ 63)%Z -> int64_wrap z = z.
Proof.
  intros H. unfold int64_wrap. rewrite Z.mod_small; lia.
Qed.

Lemma digit_byte (c : ascii) :
  is_digit c = true -> (N_of_ascii c + 256 - 48) mod 256 = N_of_ascii c - 48.
Proof.
  intros Hc. pose proof (is_digit_bounds c Hc) as Hb.
  symmetry. apply (N.mod_unique _ _ 1); lia.
Qed.

Lemma non_digit_byte (c : ascii) :
  is_digit c = false -> 9 < (N_of_ascii c + 256 - 48) mod 256.
Proof.
  unfold is_digit. intros Hc. pose proof (N_ascii_bounded c) as Hb.
  apply andb_false_iff in Hc as [Hc|Hc]; [apply N.leb_gt in Hc | apply N.leb_gt in Hc].
  - rewrite N.mod_small by lia. lia.
  - rewrite <- (N.mod_unique (N_of_ascii c + 256 - 48) 256 1 (N_of_ascii c - 48)); lia.
Qed.

(** On at most 18 digits the fast loop of [Atoi] computes the decimal value. *)
Lemma Atoi_loop_digits (s : string) (n : N) :
  all_digits s = true ->
  (n + 1) * 10 ^ N.of_nat (String.length s) <= 10 ^ 18 ->
  Atoi_loop s (Z.of_N n) = (Z.of_N (decimal_value s n), None).
Proof.
  revert n. induction s as [|c s IH]; intros n Hd Hb; simpl in *.
  - reflexivity.
  - apply andb_true_iff in Hd as [Hc Hs].
    rewrite (digit_byte c Hc).
    pose proof (is_digit_bounds c Hc) as Hcb.
    destruct (N.ltb_spec 9 (N_of_ascii c - 48)) as [?|_]; [lia|].
    change (N.pos (Pos.of_succ_nat (String.length s)))
      with (N.of_nat (S (String.length s))) in Hb.
    rewrite pow10_succ in Hb.
    pose proof (pow10_pos (String.length s)) as Hp.
    assert (Hn : (n * 10 + (N_of_ascii c - 48) + 1) * 10 ^ N.of_nat (String.length s)
                 <= 10 ^ 18).
    { etransitivity; [|exact Hb].
      replace ((n + 1) * (10 * 10 ^ N.of_nat (String.length s)))
        with ((n * 10 + 10) * 10 ^ N.of_nat (String.length s)) by lia.
      apply N.mul_le_mono_r. lia. }
    assert (Hsmall : n * 10 + (N_of_ascii c - 48) < 10 ^ 18) by nia.
    change (10 ^ 18) with 1000000000000000000 in Hsmall.
    rewrite int64_wrap_small
      by (change (2 ^ 63)%Z with 9223372036854775808%Z; lia).
    replace (Z.of_N n * 10 + Z.of_N (N_of_ascii c - 48))%Z
      with (Z.of_N (n * 10 + (N_of_ascii c - 48))) by lia.
    apply IH; assumption.
Qed.

Lemma Atoi_loop_non_digit (s : string) (n : Z) :
  all_digits s = false -> Atoi_loop s n = (0%Z, Some ErrSyntax).
Proof.
  revert n. induction s as [|c s IH]; intros n Hd; simpl in *; [discriminate|].
  destruct (is_digit c) eqn:Hc; simpl in Hd.
  - rewrite (digit_byte c Hc).
    pose proof (is_digit_bounds c Hc) as Hcb.
    destruct (N.ltb_spec 9 (N_of_ascii c - 48)) as [?|_]; [lia|].
    apply IH, Hd.
  - pose proof (non_digit_byte c Hc) as Hb. apply N.ltb_lt in Hb. now rewrite Hb.
Qed.

Lemma ParseUint_loop_range (s : string) (n v : N) :
  ParseUint_loop s n = (v, Some ErrRange) -> v = maxUint64.
Proof.
  revert n. induction s as [|c s IH]; intros n; simpl; [discriminate|].
  destruct (digit_of_byte (N_of_ascii c)) as [d|]; [|discriminate].
  destruct (10 <=? d); [discriminate|].
  destruct (cutoff10 <=? n); [now intros [= <-]|].
  match goal with |- context [if ?b then _ else _] => destruct b end;
    [now intros [= <-] | apply IH].
Qed.

Lemma ParseUint_range (s : string) (v : N) :
  ParseUint s = (v, Some ErrRange) -> v = maxUint64.
Proof.
  unfold ParseUint. destruct s; [discriminate | apply ParseUint_loop_range].
Qed.

Lemma digit_is_no_sign (c : ascii) :
  is_digit c = true -> is_minus c = false /\ is_plus c = false.
Proof.
  intros Hc. pose proof (is_digit_bounds c Hc) as Hb. unfold is_minus, is_plus.
  split; apply N.eqb_neq; lia.
Qed.

(** [Atoi] on a non-empty string of digits. *)
Lemma Atoi_digits (s : string) :
  s <> EmptyString -> all_digits s = true ->
  Atoi s =
    if decimal_value s 0 <=? 2 ^ 63 - 1
    then (Z.of_N (decimal_value s 0), None)
    else (Z.of_N (2 ^ 63 - 1), Some ErrRange).
Proof.
  intros Hne Hd. unfold Atoi.
  destruct s as [|c rest] eqn:Es; [congruence|]. rewrite <- Es in *.
  assert (Hc : is_digit c = true) by (subst s; simpl in Hd; now apply andb_true_iff in Hd).
  destruct (digit_is_no_sign c Hc) as [Hm Hp].
  pose proof (decimal_value_bound s 0 Hd) as Hbound.
  destruct ((0 <? String.length s) && (String.length s <? 19))%nat eqn:Hlen.
  - rewrite Es. rewrite Hm, Hp. simpl orb. cbv iota. simpl andb. cbv iota.
    rewrite <- Es.
    apply andb_true_iff in Hlen as [_ Hlt]. apply Nat.ltb_lt in Hlt.
    assert (H18 : 10 ^ N.of_nat (String.length s) <= 10 ^ 18).
    { change 18 with (N.of_nat 18). apply pow10_mono. lia. }
    change (0%Z) with (Z.of_N 0).
    rewrite (Atoi_loop_digits s 0 Hd) by lia.
    change (10 ^ 18) with 1000000000000000000 in H18.
    destruct (N.leb_spec (decimal_value s 0) (2 ^ 63 - 1)) as [_|Hgt]; [reflexivity|].
    change (2 ^ 63 - 1) with 9223372036854775807 in Hgt. lia.
  - unfold ParseInt. rewrite Es, Hm, Hp. simpl andb. cbv iota. rewrite <- Es.
    rewrite (ParseUint_digits s Hne Hd).
    change (2 ^ 63 - 1) with 9223372036854775807.
    change (2 ^ 63) with 9223372036854775808.
    unfold maxUint64.
    destruct (N.leb_spec (decimal_value s 0) 18446744073709551615) as [Hle|Hgt].
    + destruct (N.leb_spec 9223372036854775808 (decimal_value s 0)) as [Hbig|Hsmall];
      destruct (N.leb_spec (decimal_value s 0) 9223372036854775807) as [Hle'|Hgt'];
        try lia; try reflexivity.
      rewrite int64_wrap_small
        by (change (2 ^ 63)%Z with 9223372036854775808%Z; lia).
      reflexivity.
    + destruct (N.leb_spec (decimal_value s 0) 9223372036854775807); [lia | reflexivity].
Qed.

(** [Atoi] fails on a string with a byte that is not a digit after the sign,
    and on a string that is a sign alone. *)
Lemma Atoi_non_digit (s : string) :
  s <> EmptyString ->
  all_digits (unsigned_part s) = false \/ unsigned_part s = EmptyString ->
  exists v e, Atoi s = (v, Some e).
Proof.
  intros Hne Hbad. unfold Atoi.
  destruct s as [|c rest] eqn:Es; [congruence|]. rewrite <- Es.
  destruct ((0 <? String.length s) && (String.length s <? 19))%nat.
  - rewrite Es. simpl in Hbad.
    destruct (is_minus c || is_plus c) eqn:Hsign.
    + destruct rest as [|c' rest']; [simpl; eauto|].
      destruct Hbad as [Hbad|Hbad]; [|discriminate].
      change ((String.length (String c' rest') <? 1)%nat) with false.
      simpl andb. cbv iota.
      rewrite (Atoi_loop_non_digit _ 0%Z Hbad). eauto.
    + destruct Hbad as [Hbad|Hbad]; [|discriminate]. simpl andb. cbv iota.
      rewrite (Atoi_loop_non_digit _ 0%Z Hbad). eauto.
  - unfold ParseInt. rewrite Es. simpl in Hbad.
    assert (Hs : (if is_plus c then rest else if is_minus c then rest else String c rest)
                 = (if is_minus c || is_plus c then rest else String c rest)).
    { destruct (is_plus c), (is_minus c); reflexivity. }
    rewrite Hs.
    destruct (ParseUint (if is_minus c || is_plus c then rest else String c rest))
      as [un err] eqn:Hp.
    assert (Herr : exists e, err = Some e).
    { destruct Hbad as [Hbad|Hbad].
      - destruct (ParseUint_non_digit _ Hbad) as (v & e & Hv). rewrite Hv in Hp.
        injection Hp as _ <-. eauto.
      - rewrite Hbad in Hp. injection Hp as _ <-. eauto. }
    destruct Herr as [e ->]. destruct e; [eauto|].
    apply ParseUint_range in Hp. subst un.
    destruct (negb (is_plus c) && is_minus c); simpl; eauto.
Qed.

(** [Atoi] on a minus sign followed by digits. *)
Lemma Atoi_negative (d : string) :
  d <> EmptyString -> all_digits d = true -> decimal_value d 0 <= 2 ^ 63 ->
  Atoi (String "-" d) = ((- Z.of_N (decimal_value d 0))%Z, None).
Proof.
  intros Hne Hd Hle. unfold Atoi.
  pose proof (decimal_value_bound d 0 Hd) as Hbound.
  change (2 ^ 63) with 9223372036854775808 in Hle.
  destruct ((0 <? String.length (String "-" d)) && (String.length (String "-" d) <? 19))%nat
    eqn:Hlen.
  - change (is_minus "-") with true. simpl orb. cbv iota.
    destruct d as [|c rest] eqn:Ed; [congruence|]. rewrite <- Ed in *.
    assert (Hl1 : (String.length d <? 1)%nat = false) by (now rewrite Ed).
    rewrite Hl1. simpl andb. cbv iota.
    apply andb_true_iff in Hlen as [_ Hlt]. apply Nat.ltb_lt in Hlt.
    assert (H18 : 10 ^ N.of_nat (String.length d) <= 10 ^ 18).
    { change 18 with (N.of_nat 18). apply pow10_mono. simpl in Hlt. lia. }
    change (0%Z) with (Z.of_N 0).
    rewrite (Atoi_loop_digits d 0 Hd) by lia.
    change (10 ^ 18) with 1000000000000000000 in H18.
    rewrite int64_wrap_small
      by (change (2 ^ 63)%Z with 9223372036854775808%Z; lia).
    reflexivity.
  - unfold ParseInt. change (is_minus "-") with true. change (is_plus "-") with false.
    simpl negb. simpl andb. cbv iota.
    rewrite (ParseUint_digits d Hne Hd). unfold maxUint64.
    destruct (N.leb_spec (decimal_value d 0) 18446744073709551615) as [_|?]; [|lia].
    change (2 ^ 63) with 9223372036854775808.
    destruct (N.ltb_spec 9223372036854775808 (decimal_value d 0)) as [?|_]; [lia|].
    f_equal.
    destruct (N.eq_dec (decimal_value d 0) 9223372036854775808) as [E|E].
    + rewrite E. reflexivity.
    + rewrite (int64_wrap_small (Z.of_N (decimal_value d 0)))
        by (change (2 ^ 63)%Z with 9223372036854775808%Z; lia).
      apply int64_wrap_small. change (2 ^ 63)%Z with 9223372036854775808%Z. lia.
Qed.

Section ListenAddress.
Variable Quote : string -> string.

(** X18: the port [NewServer] listens on. With [PORT] unset or empty it is
    8080, silently. A [PORT] of decimal digits gives that number when it fits
    a 64-bit signed integer, and a minus sign before the digits gives the
    negative number: the port is not checked against any range. A [PORT]
    with a byte that is not a digit after an optional sign, or a sign alone,
    gives 8080 and a warning. A warning is printed only with a fall back to
    8080. *)
Theorem NewServer_listen_port (PORT : string) :
  (PORT = EmptyString -> NewServer_port Quote PORT = (8080%Z, []))
  /\ (PORT <> EmptyString -> all_digits PORT = true ->
      decimal_value PORT 0 <= 2 ^ 63 - 1 ->
      NewServer_port Quote PORT = (Z.of_N (decimal_value PORT 0), []))
  /\ (forall d, PORT = String "-" d -> d <> EmptyString -> all_digits d = true ->
                decimal_value d 0 <= 2 ^ 63 ->
                NewServer_port Quote PORT = ((- Z.of_N (decimal_value d 0))%Z, []))
  /\ (PORT <> EmptyString ->
      all_digits (unsigned_part PORT) = false \/ unsigned_part PORT = EmptyString ->
      fst (NewServer_port Quote PORT) = 8080%Z
      /\ exists line, snd (NewServer_port Quote PORT) = [EvStdout line])
  /\ (snd (NewServer_port Quote PORT) = [] \/ fst (NewServer_port Quote PORT) = 8080%Z).
Proof.
  split; [|split; [|split; [|split]]].
  - intros ->. reflexivity.
  - intros Hne Hd Hle. unfold NewServer_port.
    destruct (String.eqb_spec PORT EmptyString) as [?|_]; [contradiction|].
    rewrite (Atoi_digits PORT Hne Hd).
    apply N.leb_le in Hle. now rewrite Hle.
  - intros d -> Hne Hd Hle. unfold NewServer_port.
    change (String.eqb (String "-" d) EmptyString) with false. cbv iota.
    now rewrite (Atoi_negative d Hne Hd Hle).
  - intros Hne Hbad. unfold NewServer_port.
    destruct (String.eqb_spec PORT EmptyString) as [?|_]; [contradiction|].
    destruct (Atoi_non_digit PORT Hne Hbad) as (v & e & ->). simpl. eauto.
  - unfold NewServer_port.
    destruct (Atoi _) as [port [e|]]; simpl; [now right | now left].
Qed.

End ListenAddress.

Section StoreFailures.
Variable fmt : Time -> string.
Variable Quote : string -> string.
Context {Store : Type}.
Variable repo : TodoRepository Store.

(** X19: when the first repository call of a request fails with an error
    other than record-not-found, each of the five todo handlers answers 500
    with its own fixed message, whatever the text of the store error is,
    even a text containing the words not found. *)
Theorem store_failure_is_500_with_fixed_message (idStr : string)
    (req : UpdateTodoRequest) (creq : CreateTodoRequest)
    (s s1 : Store) (err : error) (t : Todo) :
  let svc := NewTodoService fmt repo in
  let failed (m : string) :=
    {| StatusCode := StatusInternalServerError; Body := JError m |} in
  (invalid_id (ParseUint idStr) = false ->
   FindByID repo (decimal_value idStr 0) s = (Err err, s1) ->
   Is_ErrRecordNotFound err = false ->
   value (getTodoByIDHandler svc idStr s) = failed "Failed to retrieve todo"
   /\ value (updateTodoHandler svc idStr (inl req) s) = failed "Failed to update todo"
   /\ value (deleteTodoHandler svc idStr s) = failed "Failed to delete todo")
  /\ (GetAll repo s = (Err err, s1) ->
      value (getAllTodosHandler svc s) = failed "Failed to retrieve todos")
  /\ (req_Title creq <> EmptyString ->
      Create repo (newTodo_of creq) s = ((t, Some err), s1) ->
      value (createTodoHandler Quote svc (inl creq) s) = failed "Failed to create todo").
Proof.
  intros svc failed. subst svc failed. cbv beta. split; [|split].
  - intros Hid Hf Hnf.
    unfold getTodoByIDHandler, updateTodoHandler, deleteTodoHandler.
    rewrite Hid, (handler_id idStr Hid).
    unfold svc_call, bind, emit, NewTodoService, svc_GetTodoByID, svc_UpdateTodo,
           svc_DeleteTodo.
    rewrite GetTodoByID_run, DeleteTodo_run,
            (UpdateTodo_lookup_failed fmt repo _ req s s1 err Hf), Hf, Hnf.
    repeat split.
  - intros Hf.
    unfold getAllTodosHandler, svc_call, bind, emit, NewTodoService, svc_GetAllTodos.
    rewrite GetAllTodos_run, Hf. reflexivity.
  - intros Hne Hf.
    unfold createTodoHandler, svc_call, bind, emit, NewTodoService, svc_CreateTodo.
    rewrite (CreateTodo_nonempty_title fmt repo creq s Hne), Hf. reflexivity.
Qed.

End StoreFailures.

(** ** The further properties on concrete requests *)

Lemma failed_lookup_stops_update_and_delete_witness :
  let s := brokenStore (errorString "connection refused") in
  FindByID memRepo 1 s = (Err (errorString "connection refused"), s)
  /\ repo_calls (trace (UpdateTodo show_instant memRepo 1
                          (mkUpdateTodoRequest (Some "buy bread") None) s))
     = [RepoFindByID 1]
  /\ repo_calls (trace (DeleteTodo memRepo 1 s)) = [RepoFindByID 1].
Proof.
  intros s. split; [reflexivity|].
  destruct (failed_lookup_stops_update_and_delete show_instant memRepo 1
              (mkUpdateTodoRequest (Some "buy bread") None) s s
              (errorString "connection refused") eq_refl)
    as (_ & Hu & _ & _ & Hd & _).
  split; [exact Hu | exact Hd].
Defined.

Lemma UpdateTodo_changes_title_and_completed_only_witness :
  let req := mkUpdateTodoRequest (Some "buy bread") (Some true) in
  let e' := mkTodo 1 1%Z 1%Z None "buy bread" true 7 in
  In (EvRepo (RepoUpdate e')) (trace (UpdateTodo show_instant memRepo 1 req oneTodoStore))
  /\ ID e' = ID todo1 /\ UserID e' = UserID todo1 /\ CreatedAt e' = CreatedAt todo1.
Proof.
  intros req e'.
  assert (Hin : In (EvRepo (RepoUpdate e'))
                   (trace (UpdateTodo show_instant memRepo 1 req oneTodoStore)))
    by (right; left; reflexivity).
  split; [exact Hin|].
  destruct (UpdateTodo_changes_title_and_completed_only show_instant memRepo 1 req
              oneTodoStore oneTodoStore todo1 e' eq_refl Hin)
    as (H1 & H2 & H3 & _).
  split; [exact H1 | split; [exact H2 | exact H3]].
Defined.

Lemma CreateTodo_entity_witness :
  let req := mkCreateTodoRequest "  buy milk " 7 in
  In (EvRepo (RepoCreate (newTodo_of req)))
     (trace (CreateTodo show_instant memRepo req emptyStore))
  /\ Title (newTodo_of req) = "  buy milk " /\ Completed (newTodo_of req) = false.
Proof.
  intros req.
  assert (Hin : In (EvRepo (RepoCreate (newTodo_of req)))
                   (trace (CreateTodo show_instant memRepo req emptyStore)))
    by (left; reflexivity).
  split; [exact Hin|].
  destruct (proj1 (CreateTodo_entity show_instant memRepo req emptyStore (newTodo_of req))
              Hin) as (H1 & _ & _ & H4 & _).
  split; [exact H1 | exact H4].
Defined.

Lemma UpdateTodo_same_request_twice_witness :
  let req := mkUpdateTodoRequest None (Some true) in
  FindByID memRepo 1 oneTodoStore = (Ok todo1, oneTodoStore)
  /\ Update memRepo (fst (reconcile todo1 req)) oneTodoStore
     = ((todo1_done, None), doneTodoStore)
  /\ FindByID memRepo 1 doneTodoStore = (Ok todo1_done, doneTodoStore)
  /\ repo_calls (trace (repeatM 2 (UpdateTodo show_instant memRepo 1 req) oneTodoStore))
     = [RepoFindByID 1; RepoUpdate (fst (reconcile todo1 req)); RepoFindByID 1].
Proof.
  intros req. split; [reflexivity|]. split; [reflexivity|]. split; [reflexivity|].
  exact (proj1 (proj2 (UpdateTodo_same_request_twice show_instant memRepo 1 req
                         oneTodoStore oneTodoStore doneTodoStore doneTodoStore
                         todo1 todo1_done todo1_done
                         eq_refl eq_refl eq_refl eq_refl eq_refl eq_refl))).
Defined.

Lemma GetTodoByID_after_write_witness :
  let req := mkUpdateTodoRequest None (Some true) in
  let creq := mkCreateTodoRequest "buy milk" 7 in
  value (GetTodoByID show_instant memRepo 1 doneTodoStore)
  = value (UpdateTodo show_instant memRepo 1 req oneTodoStore)
  /\ value (GetTodoByID show_instant memRepo 1 oneTodoStore)
     = value (CreateTodo show_instant memRepo creq emptyStore).
Proof.
  intros req creq. split.
  - exact (proj2 (proj1 (GetTodoByID_after_write show_instant memRepo 1 req creq
                           oneTodoStore oneTodoStore doneTodoStore doneTodoStore
                           oneTodoStore oneTodoStore todo1 todo1_done todo1)
                    eq_refl eq_refl eq_refl eq_refl)).
  - refine (proj2 (proj2 (GetTodoByID_after_write show_instant memRepo 1 req creq
                            emptyStore emptyStore emptyStore emptyStore
                            oneTodoStore oneTodoStore todo1 todo1 todo1)
                     _ eq_refl eq_refl)).
    simpl. discriminate.
Defined.

Lemma service_errors_are_fixed_messages_witness :
  value (DeleteTodo memRepo 5 emptyStore)
  = Some (errorString "todo with ID 5 not found for deletion")
  /\ exists m, errorString "todo with ID 5 not found for deletion" = errorString m
               /\ In m (service_messages 5).
Proof.
  split; [reflexivity|].
  apply (service_errors_are_fixed_messages show_instant memRepo 5
           (mkUpdateTodoRequest None None) (mkCreateTodoRequest "buy milk" 7) emptyStore).
  right. right. right. right. reflexivity.
Defined.

Lemma delete_and_update_succeed_iff_witness :
  FindByID memRepo 1 oneTodoStore = (Ok todo1, oneTodoStore)
  /\ fst (Delete memRepo 1 oneTodoStore) = None
  /\ value (DeleteTodo memRepo 1 oneTodoStore) = None.
Proof.
  split; [reflexivity|]. split; [reflexivity|].
  apply (proj2 (proj1 (delete_and_update_succeed_iff show_instant memRepo 1
                         (mkUpdateTodoRequest None None) oneTodoStore))).
  exists todo1, oneTodoStore. split; reflexivity.
Defined.

Lemma createTodoHandler_decode_failures_witness :
  let svc := NewTodoService show_instant memRepo in
  decode_kind err_unknown_foo = KUnknownField
  /\ decode_kind err_syntax_5 = KSyntax
  /\ value (createTodoHandler quote_plain svc (inr err_unknown_foo) emptyStore)
     <> value (createTodoHandler quote_plain svc (inr err_syntax_5) emptyStore).
Proof.
  intros svc. split; [reflexivity|]. split; [reflexivity|].
  apply (proj2 (proj2 (proj2 (proj2
           (createTodoHandler_decode_failures quote_plain svc
              err_unknown_foo err_syntax_5 emptyStore))))).
  simpl. discriminate.
Defined.

Lemma path_handlers_call_the_service_once_witness :
  let svc := NewTodoService show_instant memRepo in
  invalid_id (ParseUint "1") = false
  /\ final (getTodoByIDHandler svc "1" oneTodoStore)
     = final (svc_GetTodoByID svc 1 oneTodoStore)
  /\ svc_calls (trace (updateTodoHandler svc "1" (inr err_unknown_foo) oneTodoStore)) = []
  /\ final (updateTodoHandler svc "1" (inl (mkUpdateTodoRequest None (Some true)))
              oneTodoStore)
     = final (svc_UpdateTodo svc 1 (mkUpdateTodoRequest None (Some true)) oneTodoStore).
Proof.
  intros svc. split; [reflexivity|]. split; [|split].
  - exact (proj1 (proj2 (path_handlers_call_the_service_once svc "1"
                           (inr err_unknown_foo) oneTodoStore eq_refl))).
  - exact (proj1 (proj2 (proj1 (proj2 (proj2
             (path_handlers_call_the_service_once svc "1"
                (inr err_unknown_foo) oneTodoStore eq_refl)))))).
  - exact (proj2 (proj1 (proj2 (proj2
             (path_handlers_call_the_service_once svc "1"
                (inl (mkUpdateTodoRequest None (Some true))) oneTodoStore eq_refl))))).
Defined.

Lemma ParseUint_fmt_d_witness :
  fmt_d 42 = "42"
  /\ ParseUint (fmt_d 42) = (42, None)
  /\ invalid_id (ParseUint (fmt_d 42)) = false.
Proof.
  split; [reflexivity|].
  assert (H : 42 <= maxUint64) by (unfold maxUint64; lia).
  split.
  - exact (proj1 (ParseUint_fmt_d 42 H)).
  - apply (proj2 (ParseUint_fmt_d 42 H)). lia.
Defined.

Lemma leading_zero_is_ignored_witness :
  ParseUint "07" = ParseUint "7"
  /\ getTodoByIDHandler (NewTodoService show_instant memRepo) "07" oneTodoStore
     = getTodoByIDHandler (NewTodoService show_instant memRepo) "7" oneTodoStore.
Proof.
  pose (body := inl (mkUpdateTodoRequest None None) : UpdateTodoRequest + DecodeError).
  split.
  - apply (proj1 (leading_zero_is_ignored (NewTodoService show_instant memRepo)
                    "7" body oneTodoStore)).
    discriminate.
  - exact (proj1 (proj2 (leading_zero_is_ignored (NewTodoService show_instant memRepo)
                           "7" body oneTodoStore))).
Defined.

Lemma missing_record_is_404_with_its_id_witness :
  let svc := NewTodoService show_instant memRepo in
  let req := mkUpdateTodoRequest None (Some true) in
  FindByID memRepo (decimal_value "007" 0) oneTodoStore
  = (Err ErrRecordNotFound, oneTodoStore)
  /\ getTodoByIDHandler svc "007" oneTodoStore
     = ({| StatusCode := StatusNotFound; Body := JError "todo with ID 7 not found" |},
        oneTodoStore, [EvSvc (SvcGetTodoByID 7); EvRepo (RepoFindByID 7)])
  /\ updateTodoHandler svc "007" (inl req) oneTodoStore
     = ({| StatusCode := StatusNotFound;
           Body := JError "todo with ID 7 not found for update" |},
        oneTodoStore, [EvSvc (SvcUpdateTodo 7 req); EvRepo (RepoFindByID 7)])
  /\ value (updateTodoHandler svc "007" (inr err_unknown_foo) oneTodoStore)
     = invalid_body_response.
Proof.
  intros svc req. split; [reflexivity|]. split; [|split].
  - exact (proj1 (missing_record_is_404_with_its_id show_instant memRepo "007"
                    (inr err_unknown_foo) oneTodoStore oneTodoStore
                    ErrRecordNotFound eq_refl eq_refl eq_refl)).
  - exact (proj1 (proj2 (missing_record_is_404_with_its_id show_instant memRepo "007"
                           (inl req) oneTodoStore oneTodoStore
                           ErrRecordNotFound eq_refl eq_refl eq_refl))).
  - exact (f_equal value
             (proj1 (proj2 (missing_record_is_404_with_its_id show_instant memRepo "007"
                              (inr err_unknown_foo) oneTodoStore oneTodoStore
                              ErrRecordNotFound eq_refl eq_refl eq_refl)))).
Defined.

Lemma createTodoHandler_answers_witness :
  let svc := NewTodoService show_instant memRepo in
  value (createTodoHandler quote_plain svc (inl (mkCreateTodoRequest EmptyString 7))
           emptyStore)
  = {| StatusCode := StatusBadRequest; Body := JError "title cannot be empty" |}
  /\ value (createTodoHandler quote_plain svc (inl (mkCreateTodoRequest "buy milk" 7))
              emptyStore)
     = {| StatusCode := StatusCreated; Body := JTodo (response_of show_instant todo1) |}.
Proof.
  intros svc. split.
  - apply (proj1 (createTodoHandler_answers show_instant quote_plain memRepo
                    (mkCreateTodoRequest EmptyString 7) emptyStore)).
    reflexivity.
  - refine (proj2 (proj2 (proj2 (createTodoHandler_answers show_instant quote_plain memRepo
                                   (mkCreateTodoRequest "buy milk" 7) emptyStore) _))).
    simpl. discriminate.
Defined.

Lemma Health_message_witness :
  let db := mkDBState None None quietStats in
  fst (Health show_duration db) !! "message" = Some msg_healthy.
Proof.
  intros db.
  exact (proj1 (Health_message show_duration db eq_refl eq_refl)).
Defined.

Lemma NewServer_listen_port_witness :
  NewServer_port quote_plain EmptyString = (8080%Z, [])
  /\ NewServer_port quote_plain "3000" = (3000%Z, [])
  /\ NewServer_port quote_plain "-1" = ((-1)%Z, [])
  /\ fst (NewServer_port quote_plain "80a") = 8080%Z.
Proof.
  split; [|split; [|split]].
  - apply (proj1 (NewServer_listen_port quote_plain EmptyString)). reflexivity.
  - apply (proj1 (proj2 (NewServer_listen_port quote_plain "3000")));
      [discriminate | reflexivity | vm_compute; discriminate].
  - apply (proj1 (proj2 (proj2 (NewServer_listen_port quote_plain "-1"))) "1");
      [reflexivity | discriminate | reflexivity | vm_compute; discriminate].
  - apply (proj1 (proj2 (proj2 (proj2 (NewServer_listen_port quote_plain "80a")))));
      [discriminate | left; reflexivity].
Defined.

Lemma store_failure_is_500_with_fixed_message_witness :
  let s := brokenStore (errorString "relation todos not found") in
  let svc := NewTodoService show_instant memRepo in
  FindByID memRepo (decimal_value "1" 0) s
  = (Err (errorString "relation todos not found"), s)
  /\ value (getTodoByIDHandler svc "1" s)
     = {| StatusCode := StatusInternalServerError; Body := JError "Failed to retrieve todo" |}
  /\ value (getAllTodosHandler svc s)
     = {| StatusCode := StatusInternalServerError;
          Body := JError "Failed to retrieve todos" |}.
Proof.
  intros s svc. split; [reflexivity|].
  pose proof (store_failure_is_500_with_fixed_message show_instant quote_plain memRepo
                "1" (mkUpdateTodoRequest None None) (mkCreateTodoRequest "buy milk" 7)
                s s (errorString "relation todos not found") todo1) as (H1 & H2 & _).
  split.
  - exact (proj1 (H1 eq_refl eq_refl eq_refl)).
  - exact (H2 eq_refl).
Defined.
